(** * Calour heatmap: run scanning, colour bars, tick layout and the
      sort-and-plot wrapper

    A shallow embedding of [calour/heatmap/heatmap.py] (with the activation
    of [calour/heatmap/plotgui_cli.py]) and the properties its specification
    states about it.

    Conventions of the embedding:
    - Python integers are [Z]; coordinates handed to the drawing surface
      are rationals [Q]: the code computes run boundaries as [int - 0.5]
      and tick positions by halving, which binary floating point does
      exactly for the indices of a matrix;
    - a metadata cell is a [pyval]: [None], a [bool], an [int] or a [str];
      floating-point cells are left out, their [==] and [str] being those
      of IEEE 754; strings are sequences of one-byte characters;
    - [%]-formatted messages are kept symbolic, as the template together
      with its arguments;
    - a generator is observed by running it to its end; a [StopIteration]
      raised in its body surfaces as [RuntimeError], as in Python 3.7 and
      later;
    - drawing is recorded as the list of calls made on the axes, in order;
      the calls made before an exception stay in the list, as the effects on
      a matplotlib object stay;
    - experiments live in a store and are passed by reference where the
      code mutates them ([plot_sort]); code that only reads an experiment
      takes its value. *)

From Stdlib Require Import ZArith QArith Qround Qabs Lqa.
From stdpp Require Import gmap strings list sorting pretty.

Local Open Scope string_scope.
Local Open Scope list_scope.
Local Open Scope Z_scope.

(** ** Python values and exceptions *)

Module Py.

Inductive pyval :=
| PyNone
| PyBool (b : bool)
| PyInt (n : Z)
| PyStr (s : string).

#[global] Instance pyval_eq_dec : EqDecision pyval.
Proof. solve_decision. Defined.

(** [str(type(v))] *)
Definition type_str (v : pyval) : string :=
  match v with
  | PyNone => "<class 'NoneType'>"
  | PyBool _ => "<class 'bool'>"
  | PyInt _ => "<class 'int'>"
  | PyStr _ => "<class 'str'>"
  end.

(** [str(v)] *)
Definition str (v : pyval) : string :=
  match v with
  | PyNone => "None"
  | PyBool true => "True"
  | PyBool false => "False"
  | PyInt n => pretty n
  | PyStr s => s
  end.

Definition int_of_bool (b : bool) : Z := if b then 1 else 0.

(** [a == b]: [bool] is a subclass of [int], so [True == 1]; values of
    unrelated types are unequal. *)
Definition py_eq (a b : pyval) : bool :=
  match a, b with
  | PyNone, PyNone => true
  | PyBool x, PyBool y => Bool.eqb x y
  | PyInt x, PyInt y => x =? y
  | PyBool x, PyInt y => int_of_bool x =? y
  | PyInt x, PyBool y => x =? int_of_bool y
  | PyStr x, PyStr y => String.eqb x y
  | _, _ => false
  end.

(** Equality of the pairs [(str(type(x)), x)]: component-wise. *)
Definition tuple_eq (a b : string * pyval) : bool :=
  String.eqb (fst a) (fst b) && py_eq (snd a) (snd b).

Definition tuple_ne (a b : string * pyval) : bool := negb (tuple_eq a b).

(** The text of an exception: a [%]-template and the values formatted
    into it; formatting is kept symbolic. *)
Record message := Msg { template : string; args : list string }.

Inductive exn :=
| StopIteration
| RuntimeError (msg : string)
| KeyError (key : string)
| IndexError (msg : string)
| TypeError (msg : string)
| ValueError (msg : message)
| UnboundLocalError (var : string).

Inductive result (A : Type) :=
| Ok (a : A)
| Raise (e : exn).
Arguments Ok {A} a.
Arguments Raise {A} e.

(** A generator, observed by iterating it to its end: the items it
    yielded, and the exception that ended it, if one did. *)
Record gen (A : Type) := Gen { yielded : list A; raised : option exn }.
Arguments Gen {A} yielded raised.
Arguments yielded {A} g.
Arguments raised {A} g.

(** A [StopIteration] that escapes a generator body is turned into a
    [RuntimeError] (PEP 479, the behaviour of Python 3.7 and later). *)
Definition generator {A} (body : gen A) : gen A :=
  match raised body with
  | Some StopIteration =>
      Gen (yielded body) (Some (RuntimeError "generator raised StopIteration"))
  | _ => body
  end.

(** [list(g)] *)
Definition list_of {A} (g : gen A) : result (list A) :=
  match raised g with
  | None => Ok (yielded g)
  | Some e => Raise e
  end.

Fixpoint enumerate_from {A} (start : Z) (l : list A) : list (Z * A) :=
  match l with
  | [] => []
  | x :: l' => (start, x) :: enumerate_from (start + 1) l'
  end.

(** [enumerate(l)] *)
Definition enumerate {A} (l : list A) : list (Z * A) := enumerate_from 0 l.

(** [next(it)] *)
Definition next {A} (it : list A) : result (A * list A) :=
  match it with
  | [] => Raise StopIteration
  | x :: it' => Ok (x, it')
  end.

End Py.

Import Py.

(** ** The transition scanner *)

(** The [for i, current in it] loop of [_transition_index] together with the
    [yield] that follows it. [i] and [item] are the local variables of the
    same names; when the iterator is exhausted the loop is left and the
    final record [(i + 1, item[1])] is yielded. *)
Fixpoint scan_loop (i : Z) (item : string * pyval) (it : list (Z * pyval))
  : list (Z * pyval) :=
  match it with
  | [] => [(i + 1, snd item)]
  | (i', current) :: it' =>
      let current := (type_str current, current) in
      if tuple_ne item current
      then (i', snd item) :: scan_loop i' current it'
      else scan_loop i' item it'
  end.

Definition _transition_index (l : list pyval) : gen (Z * pyval) :=
  generator
    (let it := enumerate l in
     match next it with
     | Raise e => Gen [] (Some e)
     | Ok ((i, item), it) =>
         let item := (type_str item, item) in
         Gen (scan_loop i item it) None
     end).

(** What the records stand for: each value repeated over its run, the run
    of a record reaching from the previous end index to its own. *)
Fixpoint expand (prev : Z) (recs : list (Z * pyval)) : list pyval :=
  match recs with
  | [] => []
  | (i, v) :: recs' => replicate (Z.to_nat (i - prev)) v ++ expand i recs'
  end.

(** The records paired with the end index of the previous record (0 for the
    first): the variable [prev] of the callers' loops. *)
Fixpoint with_prev (prev : Z) (recs : list (Z * pyval))
  : list (Z * Z * pyval) :=
  match recs with
  | [] => []
  | (i, v) :: recs' => (prev, i, v) :: with_prev i recs'
  end.

(** ** The drawing surface *)

(** A two-dimensional numeric array: its shape and its cells. *)
Record ndarray := NdArray { shape0 : nat; shape1 : nat; cell : Z -> Z -> Q }.

Definition transpose (a : ndarray) : ndarray :=
  NdArray (shape1 a) (shape0 a) (fun r c => cell a c r).

(** A [%]-formatted read-out, kept as its template and arguments. *)
Record formatted := Fmt { fmt_template : string; fmt_args : list Q }.

Definition color := string.

Record Rectangle := mkRectangle {
  rect_xy : Q * Q;
  rect_width : Q;
  rect_height : Q;
  rect_facecolor : color;
  rect_label : pyval
}.

(** The calls the code makes on an axes object. A callback is recorded as
    the function that was installed. [activate] is the call [gui_obj()] of a
    plot GUI of the given class; for [PlotGUI_CLI] that is the activation of
    the base class followed by [plt.show()]. *)
Inductive call :=
| imshow (data : ndarray) (cmap : string) (clim : option (Q * Q))
| set_xlim (lim : Q * Q)
| set_ylim (lim : Q * Q)
| set_xlabel (s : string)
| axvline (x : Q)
| set_xticks (ticks : list Q)
| set_xticklabels (labels : list string) (rotation : Q)
| xaxis_set_visible (b : bool)
| set_ylabel (s : string)
| set_yticks (ticks : list Z)
| set_yticklabels (labels : list string)
| yaxis_set_major_formatter (format_fn : Q -> result string)
| yaxis_set_major_locator (nbins : Z) (integer : bool)
| yaxis_set_visible (b : bool)
| set_format_coord (format_coord : Q -> Q -> formatted)
| add_patch (rect : Rectangle)
| annotate (text : pyval) (xy : Q * Q) (rotation : Z)
| activate (gui_class : string).

(** The objects calls are made on: the axes [plt.subplots()] creates when
    [heatmap] is given none, the three axes of a plot GUI, and the GUI
    itself (its activation). *)
Inductive target := new_axes | gui_axes | gui_xax | gui_yax | gui_object.

#[global] Instance target_eq_dec : EqDecision target.
Proof. solve_decision. Defined.

(** Drawing code: the calls made, in order, each with the object it was made
    on, and how the code ended. The calls made before an exception stay
    made. *)
Definition M (A : Type) : Type := list (target * call) * result A.

Definition ret {A} (a : A) : M A := ([], Ok a).

Definition raise {A} (e : exn) : M A := ([], Raise e).

Definition draw (axes : target) (c : call) : M unit := ([(axes, c)], Ok tt).

Definition bind {A B} (m : M A) (f : A -> M B) : M B :=
  match m with
  | (l1, Ok a) => let '(l2, r) := f a in (l1 ++ l2, r)
  | (l1, Raise e) => (l1, Raise e)
  end.

#[global] Instance M_ret : MRet M := @ret.
#[global] Instance M_bind : MBind M := fun A B f m => bind m f.

Definition calls {A} (m : M A) : list (target * call) := fst m.
Definition outcome {A} (m : M A) : result A := snd m.

(** The rectangles added, in order. *)
Definition patches (l : list (target * call)) : list Rectangle :=
  flat_map (fun c => match snd c with add_patch r => [r] | _ => [] end) l.

(** ** The colour-bar renderer *)

(** Modelled from the spec: the default palette ([Dark2] of matplotlib, a
    constant of the plotting library), an 8-colour qualitative palette. *)
Definition Dark2 : list color :=
  ["#1b9e77"; "#d95f02"; "#7570b3"; "#e7298a";
   "#66a61e"; "#e6ab02"; "#a6761d"; "#666666"].

(** The order of strings, character by character. *)
Definition str_le (a b : string) : Prop := String.leb a b = true.

#[global] Instance str_le_dec : RelDecision str_le.
Proof. intros a b. unfold str_le. apply _. Defined.

(** [np.unique] on a sequence of strings: the distinct values, sorted. *)
Definition np_unique (values : list string) : list string :=
  remove_dups (merge_sort str_le values).

(** [zip(l, itertools.cycle(pool))]: [cur] is what is left of the current
    pass over [pool]; an empty pool ends the iteration at once. *)
Fixpoint zip_cycle {A B} (l : list A) (pool cur : list B) : list (A * B) :=
  match l with
  | [] => []
  | a :: l' =>
      match cur with
      | b :: cur' => (a, b) :: zip_cycle l' pool cur'
      | [] =>
          match pool with
          | [] => []
          | b :: pool' => (a, b) :: zip_cycle l' pool pool'
          end
      end
  end.

(** [dict(pairs)]: a later pair replaces an earlier one with the same key. *)
Definition dict (pairs : list (string * color)) : gmap string color :=
  foldl (fun m kv => <[fst kv := snd kv]> m) ∅ pairs.

(** [col[value]] *)
Definition getitem (col : gmap string color) (value : pyval) : M color :=
  match value with
  | PyStr s =>
      match col !! s with
      | Some c => ret c
      | None => raise (KeyError s)
      end
  | _ => raise (KeyError (str value))
  end.

Definition half : Q := 1 # 2.

(** The body of the [for i, value in _transition_index(values)] loop of
    [_ax_color_bar], run over the records the scanner yields; [prev] is the
    local variable of that name. *)
Fixpoint color_bar_loop (axes : target) (col : gmap string color)
    (width position : Q) (axis : Z) (label : bool)
    (prev : Z) (recs : list (Z * pyval)) : M unit :=
  match recs with
  | [] => ret tt
  | (i, value) :: recs' =>
      (if negb (py_eq value (PyStr ""))
       then
         let offset := half in
         let '(pos, w, h, rotation) :=
           if axis =? 0
           then ((inject_Z prev - offset, position)%Q, inject_Z (i - prev), width, 0)
           else ((position, inject_Z prev - offset)%Q, width, inject_Z (i - prev), 90) in
         facecolor ← getitem col value;
         let rect := mkRectangle pos w h facecolor value in
         draw axes (add_patch rect);;
         if label
         then
           let '(rx, ry) := rect_xy rect in
           let cx := (rx + rect_width rect / 2)%Q in
           let cy := (ry + rect_height rect / 2)%Q in
           draw axes (annotate value (cx, cy) rotation)
         else ret tt
       else ret tt);;
      color_bar_loop axes col width position axis label i recs'
  end.

(** Iterating a generator to its end inside drawing code. *)
Definition iterate {A} (g : gen A) (body : list A -> M unit) : M unit :=
  body (yielded g);;
  match raised g with
  | Some e => raise e
  | None => ret tt
  end.

(** [_ax_color_bar(axes, values, width, position, colors, axis, label)];
    [values] are strings, as [plot] hands them over. *)
Definition _ax_color_bar (axes : target) (values : list string)
    (width position : Q) (colors : option (list color)) (axis : Z)
    (label : bool) : M target :=
  let uniques := np_unique values in
  let colors := match colors with None => Dark2 | Some c => c end in
  let col := dict (zip_cycle uniques colors colors) in
  iterate (_transition_index (PyStr <$> values))
    (color_bar_loop axes col width position axis label 0);;
  ret axes.

(** ** The heatmap renderer *)

(** The data object, as far as this module reads it. [shape] is the shape
    of the abundance matrix: samples by features. *)
Record Experiment := mkExperiment {
  data : ndarray;
  sample_metadata : gmap string (list pyval);
  feature_metadata : gmap string (list pyval);
  heatmap_feature_field : option string;
  heatmap_databases : list string
}.

Definition shape (exp : Experiment) : Z * Z :=
  (Z.of_nat (shape0 (data exp)), Z.of_nat (shape1 (data exp))).

(** The [feature_field] argument: [False] asks for the default of the
    experiment, otherwise a field name or [None]. *)
Inductive feature_field_arg :=
| FeatureDefault
| FeatureField (f : option string).

(** The keyword arguments of [heatmap]. [transform] stands for
    [transform(exp, inplace=False, **kwargs)], [None] for no transform;
    [rc_image_cmap] is [plt.rcParams['image.cmap']]. *)
Record heatmap_args := mkArgs {
  sample_field : option string;
  feature_field : feature_field_arg;
  yticklabels_max : option Z;
  xticklabel_rot : Q;
  xticklabel_len : option Z;
  yticklabel_len : option Z;
  title : option string;
  clim : option (Q * Q);
  cmap : option string;
  axes : option target;
  rect : option (Q * Q * Q * Q);
  transform : option (Experiment -> Experiment);
  rc_image_cmap : string
}.

(** [int(q)]: truncation towards zero. *)
Definition int (q : Q) : Z := Z.quot (Qnum q) (Z.pos (Qden q)).

(** The index a slice bound stands for in a sequence of length [len]. *)
Definition slice_index (len k : Z) : Z :=
  if k <? 0 then Z.max 0 (len + k) else Z.min k len.

Definition len (s : string) : Z := Z.of_nat (String.length s).

(** [s[:stop]] *)
Definition slice_to (s : string) (stop : Z) : string :=
  String.substring 0 (Z.to_nat (slice_index (len s) stop)) s.

(** [s[start:]] *)
Definition slice_from (s : string) (start : Z) : string :=
  let a := slice_index (len s) start in
  String.substring (Z.to_nat a) (Z.to_nat (len s - a)) s.

(** [l[:-1]], [l[1:]] and [l[1:-1]] on lists. *)
Definition but_last {A} (l : list A) : list A := take (length l - 1)%nat l.
Definition but_first {A} (l : list A) : list A := drop 1 l.
Definition inner {A} (l : list A) : list A :=
  drop 1 (take (length l - 1)%nat l).

(** [range(n)] *)
Definition range (n : Z) : list Z := Z.of_nat <$> seq 0 (Z.to_nat n).

(** [table[field]] on a metadata table. *)
Definition column (table : gmap string (list pyval)) (field : string)
  : result (list pyval) :=
  match table !! field with
  | Some c => Ok c
  | None => Raise (KeyError field)
  end.

(** [for pos in l: ax.axvline(x=pos, color='white')] *)
Fixpoint axvlines (ax : target) (l : list Q) : M unit :=
  match l with
  | [] => ret tt
  | pos :: l' => draw ax (axvline pos);; axvlines ax l'
  end.

(** Unpacking [xticks] into [x_pos] and [x_val] with [zip]: the generator is
    run to its end, and its records are split into end indices and
    values. *)
Definition unzip_records (xticks : gen (Z * pyval)) : M (list Z * list pyval) :=
  match list_of xticks with
  | Raise e => raise e
  | Ok [] =>
      raise (ValueError (Msg "not enough values to unpack (expected 2, got 0)" []))
  | Ok recs => ret (fst <$> recs, snd <$> recs)
  end.

(** The label of an x tick: cut in the middle when longer than
    [xticklabel_len]. *)
Definition shorten_x (xticklabel_len : option Z) (i : string) : string :=
  match xticklabel_len with
  | Some n =>
      let mid := Z.quot n 2 in
      if len i >? n
      then slice_to i mid +:+ ".." +:+ slice_from i (- mid)
      else i
  | None => i
  end.

(** The label of a y tick: its last [yticklabel_len] characters. *)
Definition shorten_y (yticklabel_len : option Z) (i : string) : string :=
  match yticklabel_len with
  | Some n => if len i >? n then slice_from i (- n) else i
  | None => i
  end.

(** The closure [format_fn] of [heatmap]. *)
Definition format_fn (yticklabels : list string) (numcols : Z) (tick_val : Q)
  : result string :=
  if Qle_bool 0 tick_val && negb (Qle_bool (inject_Z numcols) tick_val)
  then match yticklabels !! Z.to_nat (int tick_val) with
       | Some s => Ok s
       | None => Raise (IndexError "list index out of range")
       end
  else Ok "".

(** The closure [format_coord] of [heatmap]. *)
Definition format_coord (exp : Experiment) (x y : Q) : formatted :=
  let '(numrows, numcols) := shape exp in
  let row := int (x + half) in
  let col := int (y + half) in
  if (0 <=? col) && (col <? numcols) && (0 <=? row) && (row <? numrows)
  then
    let z := cell (data exp) row col in
    Fmt "x=%1.2f, y=%1.2f, z=%1.2f" [x; y; z]
  else Fmt "x=%1.2f, y=%1.2f" [x; y].

(** The block of [heatmap] under
    "plot vertical lines between sample groups and add x tick labels". *)
Definition heatmap_x (exp : Experiment) (args : heatmap_args) (ax : target)
  : M unit :=
  match sample_field args with
  | Some sample_field =>
      xticks ←
        match column (sample_metadata exp) sample_field with
        | Ok c => ret (_transition_index c)
        | Raise (KeyError _) =>
            raise (ValueError (Msg "Sample field %r not in sample metadata"
                                   [sample_field]))
        | Raise e => raise e
        end;
      draw ax (set_xlabel sample_field);;
      '(x_pos, x_val) ← unzip_records xticks;
      let x_pos := 0%Q :: (inject_Z <$> x_pos) in
      let x_pos := (fun p => p - half)%Q <$> x_pos in
      axvlines ax (inner x_pos);;
      draw ax (set_xticks
                 (zip_with (fun a b => a + (b - a) / 2)%Q
                    (but_last x_pos) (but_first x_pos)));;
      let xticklabels := str <$> x_val in
      let xticklabels := shorten_x (xticklabel_len args) <$> xticklabels in
      draw ax (set_xticklabels xticklabels (xticklabel_rot args))
  | None => draw ax (xaxis_set_visible false)
  end.

(** The block of [heatmap] under "plot y tick labels dynamically". *)
Definition heatmap_y (exp : Experiment) (args : heatmap_args) (ax : target)
    (feature_field : option string) (numcols : Z) : M unit :=
  match feature_field with
  | Some feature_field =>
      ffield ←
        match column (feature_metadata exp) feature_field with
        | Ok c => ret c
        | Raise (KeyError _) =>
            raise (ValueError (Msg "Feature field %r not in feature metadata"
                                   [feature_field]))
        | Raise e => raise e
        end;
      draw ax (set_ylabel feature_field);;
      let yticklabels := str <$> ffield in
      let yticklabels := shorten_y (yticklabel_len args) <$> yticklabels in
      match yticklabels_max args with
      | None =>
          draw ax (set_yticks (range numcols));;
          draw ax (set_yticklabels yticklabels)
      | Some n =>
          if n =? 0 then draw ax (set_yticks [])
          else if n >? 0 then
            draw ax (yaxis_set_major_formatter (format_fn yticklabels numcols));;
            draw ax (yaxis_set_major_locator n true)
          else ret tt
      end
  | None => draw ax (yaxis_set_visible false)
  end.

(** The block of [heatmap] under "step 2. plot heatmap", with the choice of
    the data of step 1. *)
Definition heatmap_image (exp : Experiment) (args : heatmap_args) (ax : target)
  : M unit :=
  let data :=
    match transform args with
    | None => data exp
    | Some transform => data (transform exp)
    end in
  let cmap := match cmap args with None => rc_image_cmap args | Some c => c end in
  draw ax (imshow (transpose data) cmap (clim args));;
  match rect args with
  | Some (r0, r1, r2, r3) => draw ax (set_xlim (r0, r1));; draw ax (set_ylim (r2, r3))
  | None => ret tt
  end.

(** The feature field [heatmap] uses: the default of the experiment when the
    argument is [False]. *)
Definition feature_field_used (exp : Experiment) (args : heatmap_args)
  : option string :=
  match feature_field args with
  | FeatureDefault => heatmap_feature_field exp
  | FeatureField f => f
  end.

(** The axes [heatmap] draws on: those it is given, or new ones. Their
    figure is what [heatmap] returns. *)
Definition axes_used (args : heatmap_args) : target :=
  match axes args with None => new_axes | Some a => a end.

(** [heatmap(exp, sample_field, feature_field, ...)]; the result is the axes
    drawn on, which stands for their figure. *)
Definition heatmap (exp : Experiment) (args : heatmap_args) : M target :=
  let feature_field := feature_field_used exp args in
  let '(numrows, numcols) := shape exp in
  let ax := axes_used args in
  heatmap_image exp args ax;;
  heatmap_x exp args ax;;
  heatmap_y exp args ax feature_field numcols;;
  draw ax (set_format_coord (format_coord exp));;
  ret ax.

(** What was drawn and set, read off the calls. *)
Definition vlines (l : list (target * call)) : list Q :=
  flat_map (fun c => match snd c with axvline x => [x] | _ => [] end) l.

Definition xticks_set (l : list (target * call)) : list (list Q) :=
  flat_map (fun c => match snd c with set_xticks t => [t] | _ => [] end) l.

Definition xticklabels_set (l : list (target * call)) : list (list string) :=
  flat_map (fun c => match snd c with set_xticklabels t _ => [t] | _ => [] end) l.

Definition yticks_set (l : list (target * call)) : list (list Z) :=
  flat_map (fun c => match snd c with set_yticks t => [t] | _ => [] end) l.

Definition yticklabels_set (l : list (target * call)) : list (list string) :=
  flat_map (fun c => match snd c with set_yticklabels t => [t] | _ => [] end) l.

Definition ylocators_set (l : list (target * call)) : list (Z * bool) :=
  flat_map (fun c => match snd c with
                     | yaxis_set_major_locator n b => [(n, b)]
                     | _ => []
                     end) l.

Definition yformatters_set (l : list (target * call))
  : list (Q -> result string) :=
  flat_map (fun c => match snd c with
                     | yaxis_set_major_formatter f => [f]
                     | _ => []
                     end) l.

(** The x block of [heatmap] has what it needs: no sample field is asked
    for, or the field is a column of the sample metadata with at least one
    sample. *)
Definition sample_axis_ok (exp : Experiment) (args : heatmap_args) : Prop :=
  match sample_field args with
  | None => True
  | Some field =>
      exists col, sample_metadata exp !! field = Some col /\ col <> []
  end.

(** A small experiment, four samples by two features, and the default
    arguments of [heatmap] with a sample field. *)
Definition example_exp : Experiment :=
  mkExperiment
    (NdArray 4 2 (fun r c => inject_Z (10 * r + c)))
    {[ "group" := [PyStr "a"; PyStr "a"; PyInt 1; PyNone] ]}
    {[ "taxonomy" := [PyStr "k__Bacteria;p__Firmicutes"; PyStr "k__Archaea"] ]}
    (Some "taxonomy")
    ["dbbact"].

Definition example_args : heatmap_args :=
  mkArgs (Some "group") FeatureDefault (Some 100) 45 (Some 10) (Some 15)
    None None None None None None "viridis".

(** The calls that concern the x axis. *)
Definition x_axis_call (c : call) : bool :=
  match c with
  | set_xlabel _ | axvline _ | set_xticks _ | set_xticklabels _ _
  | xaxis_set_visible _ => true
  | _ => false
  end.

(** ** The plot orchestrator and the sort-and-plot wrapper *)

(** A database handle and a plot GUI, as far as this module uses them. *)
Record Database := mkDatabase { annotatable : bool; database_name : string }.

Record PlotGUI := mkPlotGUI {
  gui_class : string;
  databases : list Database;
  _annotation_db : option Database
}.

(** An argument that is one name or a list of names. *)
Inductive names := Name (s : string) | Names (l : list string).

(** Modelled from the spec: [_to_list] of [calour/util.py], which is not
    part of these sources. The spec speaks of "sort field(s) (single or
    list)": a single name stands for the list of that one name, a list for
    itself. *)
Definition _to_list (x : names) : list string :=
  match x with
  | Name s => [s]
  | Names l => l
  end.

(** The [databases] argument of [plot]: [False] asks for the default of the
    experiment, otherwise a list of names or [None]. *)
Inductive databases_arg :=
| DatabasesDefault
| Databases (d : option (list string)).

Definition with_axes (a : heatmap_args) (ax : target) : heatmap_args :=
  mkArgs (sample_field a) (feature_field a) (yticklabels_max a)
    (xticklabel_rot a) (xticklabel_len a) (yticklabel_len a) (title a)
    (clim a) (cmap a) (Some ax) (rect a) (transform a) (rc_image_cmap a).

Definition with_sample_field (a : heatmap_args) (f : option string)
  : heatmap_args :=
  mkArgs f (feature_field a) (yticklabels_max a)
    (xticklabel_rot a) (xticklabel_len a) (yticklabel_len a) (title a)
    (clim a) (cmap a) (axes a) (rect a) (transform a) (rc_image_cmap a).

Definition lift {A} (r : result A) : M A := ([], r).

(** Objects live in a store and are handed around by reference. *)
Definition addr := positive.

Section orchestration.

(** Modelled from the spec: [_get_database_class] of [calour/database.py],
    which is not part of these sources: the handle of the named database,
    or the error of the lookup. *)
Variable _get_database_class : string -> Experiment -> result Database.

(** Modelled from the spec: [Experiment.sort_samples(field, inplace=True)],
    which is not part of these sources: the experiment with its samples
    reordered by the field, or the error of the sort. In place means that
    the receiver is replaced in the store, see [sort_loop]. *)
Variable sort_samples : string -> Experiment -> result Experiment.

Definition possible_gui : list (string * string) :=
  [("qt5", "PlotGUI_QT5"); ("cli", "PlotGUI_CLI"); ("jupyter", "PlotGUI_Jupyter")].

(** The [for cdatabase in databases] loop of [_create_plot_gui]. *)
Fixpoint link_databases (exp : Experiment) (gui_obj : PlotGUI)
    (dbs : list string) : result PlotGUI :=
  match dbs with
  | [] => Ok gui_obj
  | cdatabase :: dbs' =>
      match _get_database_class cdatabase exp with
      | Raise e => Raise e
      | Ok cdb =>
          let gui_obj :=
            mkPlotGUI (gui_class gui_obj) (databases gui_obj ++ [cdb])
              (_annotation_db gui_obj) in
          let gui_obj :=
            if annotatable cdb
            then match _annotation_db gui_obj with
                 | None => mkPlotGUI (gui_class gui_obj) (databases gui_obj) (Some cdb)
                 | Some _ => gui_obj
                 end
            else gui_obj in
          link_databases exp gui_obj dbs'
      end
  end.

(** [_create_plot_gui(exp, gui, databases)]. Instantiating the GUI class
    (of [plotgui.py] and its children, of which only the activation of
    [PlotGUI_CLI] is part of these sources) gives, after the spec, a GUI
    with no database attached and no annotation database; iterating [None]
    is a [TypeError]. The warning about a second database that can annotate
    has no effect on the result and is left out. *)
Definition _create_plot_gui (exp : Experiment) (gui : option string)
    (dbs : option (list string)) : result PlotGUI :=
  match gui ≫= (fun g => (list_to_map possible_gui : gmap string string) !! g) with
  | None =>
      Raise (ValueError (Msg "Unknown GUI specified: %r. Possible values are: %s"
                             [default "None" gui; "['qt5', 'cli', 'jupyter']"]))
  | Some gui =>
      let gui_obj := mkPlotGUI gui [] None in
      match dbs with
      | None => Raise (TypeError "'NoneType' object is not iterable")
      | Some dbs => link_databases exp gui_obj dbs
      end
  end.

(** The loop of [plot] over the colour-bar fields of one axis; [position]
    is the local variable of that name. *)
Fixpoint color_bars (exp_metadata : gmap string (list pyval)) (ax : target)
    (axis : Z) (barwidth barspace : Q) (label : bool) (position : Q)
    (fields : list string) : M unit :=
  match fields with
  | [] => ret tt
  | s :: fields' =>
      col ← lift (column exp_metadata s);
      let values := (fun i => match i with PyNone => "" | _ => str i end) <$> col in
      _ax_color_bar ax values barwidth position None axis label;;
      color_bars exp_metadata ax axis barwidth barspace label
        (position + (barspace + barwidth))%Q fields'
  end.

(** [plot(exp, sample_color_bars, feature_color_bars, gui, databases,
    color_bar_label, **kwargs)]; [kwargs] are the arguments handed on to
    [heatmap]. *)
Definition plot (exp : Experiment) (sample_color_bars feature_color_bars : option names)
    (gui : option string) (dbs : databases_arg) (color_bar_label : bool)
    (kwargs : heatmap_args) : M PlotGUI :=
  let dbs :=
    match dbs with
    | DatabasesDefault => Some (heatmap_databases exp)
    | Databases d => d
    end in
  gui_obj ← lift (_create_plot_gui exp gui dbs);
  heatmap exp (with_axes kwargs gui_axes);;
  let barwidth := (3 # 10)%Q in
  let barspace := (1 # 20)%Q in
  let label := color_bar_label in
  match sample_color_bars with
  | Some sample_color_bars =>
      color_bars (sample_metadata exp) gui_xax 0 barwidth barspace label 0
        (_to_list sample_color_bars)
  | None => ret tt
  end;;
  match feature_color_bars with
  | Some feature_color_bars =>
      color_bars (feature_metadata exp) gui_yax 1 barwidth barspace label 0
        (_to_list feature_color_bars)
  | None => ret tt
  end;;
  draw gui_object (activate (gui_class gui_obj));;
  ret gui_obj.

(** Modelled from the spec: [Experiment.copy()], which is not part of these
    sources: a new object with the content of the receiver. *)
Definition copy (h : gmap addr Experiment) (exp : addr)
  : option (gmap addr Experiment * addr) :=
  e ← h !! exp;
  let newexp := fresh (dom h) in
  Some (<[newexp := e]> h, newexp).

(** The [for cfield in fields] loop of [plot_sort]: each sort replaces the
    object [newexp] refers to. [cfield] is the loop variable, [None] as long
    as it is unbound. *)
Fixpoint sort_loop (h : gmap addr Experiment) (newexp : addr)
    (cfield : option string) (fields : list string)
  : option (gmap addr Experiment * result (option string)) :=
  match fields with
  | [] => Some (h, Ok cfield)
  | f :: fields' =>
      e ← h !! newexp;
      match sort_samples f e with
      | Raise ex => Some (h, Raise ex)
      | Ok e' => sort_loop (<[newexp := e']> h) newexp (Some f) fields'
      end
  end.

(** Sorting one field after another, on values: the experiment reached when
    the sorts are applied in order, up to the first one that fails. *)
Fixpoint sorted_by (fields : list string) (e : Experiment) : Experiment :=
  match fields with
  | [] => e
  | f :: fields' =>
      match sort_samples f e with
      | Ok e' => sorted_by fields' e'
      | Raise _ => e
      end
  end.

(** [plot_sort(exp, fields, sample_color_bars, feature_color_bars, gui,
    databases, color_bar_label, **kwargs)]. [kw_sample_field] is the entry
    ['sample_field'] of [kwargs] when there is one, [kwargs] the rest. The
    result is the store after the call and what was drawn and returned;
    there is none only for a reference that is not in the store. *)
Definition plot_sort (h : gmap addr Experiment) (exp : addr)
    (fields : option names)
    (sample_color_bars feature_color_bars : option names)
    (gui : option string) (dbs : databases_arg) (color_bar_label : bool)
    (kw_sample_field : option (option string)) (kwargs : heatmap_args)
  : option (gmap addr Experiment * M PlotGUI) :=
  '(h, newexp, plot_field) ←
    match fields with
    | Some fields =>
        '(h, newexp) ← copy h exp;
        let fields := _to_list fields in
        '(h, cfield) ← sort_loop h newexp None fields;
        match cfield with
        | Raise ex => Some (h, newexp, Raise ex)
        | Ok None => Some (h, newexp, Raise (UnboundLocalError "cfield"))
        | Ok (Some cfield) => Some (h, newexp, Ok (Some cfield))
        end
    | None => Some (h, exp, Ok None)
    end;
  e ← h !! newexp;
  Some (h,
        plot_field ← lift plot_field;
        match kw_sample_field with
        | Some sample_field =>
            plot e sample_color_bars feature_color_bars gui dbs color_bar_label
              (with_sample_field kwargs sample_field)
        | None =>
            plot e sample_color_bars feature_color_bars gui dbs color_bar_label
              (with_sample_field kwargs plot_field)
        end).

End orchestration.

(** ** Reading a rectangle along an axis *)

(** For a bar along the x axis ([axis = 0]) the run extends along x and the
    bar is [width] thick along y; for any other [axis] it is the other way
    round. *)
Definition along (axis : Z) (xy : Q * Q) : Q :=
  if axis =? 0 then fst xy else snd xy.

Definition across (axis : Z) (xy : Q * Q) : Q :=
  if axis =? 0 then snd xy else fst xy.

Definition rect_extent (axis : Z) (r : Rectangle) : Q :=
  if axis =? 0 then rect_width r else rect_height r.

Definition rect_thickness (axis : Z) (r : Rectangle) : Q :=
  if axis =? 0 then rect_height r else rect_width r.

(** The rectangle [r] is the bar of the run [(prev, i, v)], which reaches
    from the boundary [prev] to the end index [i] and has the value [v]. *)
Definition bar_of_run (axis : Z) (width position : Q)
    (r : Rectangle) (run : Z * Z * pyval) : Prop :=
  let '(prev, i, v) := run in
  along axis (rect_xy r) = (inject_Z prev - half)%Q /\
  rect_extent axis r = inject_Z (i - prev) /\
  (along axis (rect_xy r) + rect_extent axis r == inject_Z i - half)%Q /\
  rect_thickness axis r = width /\
  across axis (rect_xy r) = position /\
  rect_label r = v.

(** ** Counting runs *)

(** The number of places where a sequence changes: the neighbours that
    differ. *)
Fixpoint changes (l : list pyval) : nat :=
  match l with
  | [] => 0
  | x :: l' =>
      match l' with
      | [] => 0
      | y :: _ => (if decide (x = y) then 0 else 1) + changes l'
      end
  end.

(** The annotations added, in order: text, position and rotation. *)
Definition annotations (l : list (target * call)) : list (pyval * (Q * Q) * Z) :=
  flat_map (fun c => match snd c with
                     | annotate t xy r => [(t, xy, r)]
                     | _ => []
                     end) l.

(** The colour list [_ax_color_bar] cycles through. *)
Definition palette (colors : option (list color)) : list color :=
  match colors with None => Dark2 | Some c => c end.

(** The y block of [heatmap] has what it needs: no feature field is used,
    or the field is a column of the feature metadata. *)
Definition feature_axis_ok (exp : Experiment) (args : heatmap_args) : Prop :=
  match feature_field_used exp args with
  | None => True
  | Some field => is_Some (feature_metadata exp !! field)
  end.

(** The data [heatmap] shows: transformed, unless [transform] is [None]. *)
Definition data_shown (exp : Experiment) (args : heatmap_args) : ndarray :=
  match transform args with
  | None => data exp
  | Some transform => data (transform exp)
  end.

(** The calls that install a coordinate read-out. *)
Definition installs_format_coord (c : call) : bool :=
  match c with
  | set_format_coord _ => true
  | _ => false
  end.

(** ** Kinds of calls, stacked bars and failing sorts *)

(** The calls [heatmap] makes, the calls a colour bar makes, and the
    activation of a plot GUI. *)
Definition bar_call (c : call) : bool :=
  match c with
  | add_patch _ | annotate _ _ _ => true
  | _ => false
  end.

Definition activation (c : call) : bool :=
  match c with
  | activate _ => true
  | _ => false
  end.

Definition heatmap_call (c : call) : bool := negb (bar_call c || activation c).


(** The cells of a metadata column as [plot] hands them to a colour bar:
    [''] for [None], and [str] of the cell otherwise. *)
Definition bar_values (col : list pyval) : list string :=
  (fun i => match i with PyNone => "" | _ => str i end) <$> col.

(** The first error met when sorting by one field after another, if any. *)
Fixpoint sort_error (sort_samples : string -> Experiment -> result Experiment)
    (fields : list string) (e : Experiment) : option exn :=
  match fields with
  | [] => None
  | f :: fields' =>
      match sort_samples f e with
      | Ok e' => sort_error sort_samples fields' e'
      | Raise ex => Some ex
      end
  end.


(** * Properties *)

(** ** Properties of the scanner *)

Section scanner.

Lemma type_str_inj_tag (a b : pyval) :
  tuple_eq (type_str a, a) (type_str b, b) = true <-> a = b.
Proof.
  unfold tuple_eq; simpl. split.
  - intros H. apply andb_prop in H as [Ht Hv].
    destruct a as [|x|x|x], b as [|y|y|y]; simpl in *; try discriminate.
    + reflexivity.
    + apply Bool.eqb_prop in Hv. congruence.
    + apply Z.eqb_eq in Hv. congruence.
    + apply String.eqb_eq in Hv. congruence.
  - intros ->. destruct b as [|y|y|y]; simpl.
    + reflexivity.
    + apply Bool.eqb_reflx.
    + apply Z.eqb_refl.
    + apply String.eqb_refl.
Qed.

Lemma tuple_ne_tag (a b : pyval) :
  tuple_ne (type_str a, a) (type_str b, b) = bool_decide (a <> b).
Proof.
  unfold tuple_ne.
  destruct (tuple_eq (type_str a, a) (type_str b, b)) eqn:E; simpl.
  - apply type_str_inj_tag in E. subst. symmetry. apply bool_decide_eq_false. tauto.
  - symmetry. apply bool_decide_eq_true. intros ->.
    assert (tuple_eq (type_str b, b) (type_str b, b) = true) by (apply type_str_inj_tag; reflexivity).
    congruence.
Qed.

Lemma scan_loop_expand (rest : list pyval) :
  forall (i p : Z) (item : pyval),
    p <= i ->
    expand p (scan_loop i (type_str item, item) (enumerate_from (i + 1) rest))
    = replicate (Z.to_nat (i + 1 - p)) item ++ rest.
Proof.
  induction rest as [|c rest IH]; intros i p item Hp; simpl.
  - reflexivity.
  - rewrite tuple_ne_tag. case_bool_decide as Hne; simpl.
    + rewrite IH by lia.
      replace (i + 1 + 1 - (i + 1)) with 1 by lia. reflexivity.
    + assert (item = c) as <- by (destruct (decide (item = c)); tauto).
      rewrite IH by lia.
      replace (Z.to_nat (i + 1 + 1 - p)) with (S (Z.to_nat (i + 1 - p))) by lia.
      rewrite replicate_S_end, <- app_assoc. reflexivity.
Qed.

Lemma scan_loop_lower (rest : list pyval) :
  forall (i : Z) (item : string * pyval),
    Forall (fun r => i + 1 <= fst r) (scan_loop i item (enumerate_from (i + 1) rest)).
Proof.
  induction rest as [|c rest IH]; intros i item; simpl.
  - constructor; [simpl; lia | constructor].
  - destruct (tuple_ne item (type_str c, c)).
    + constructor; [simpl; lia |].
      eapply Forall_impl; [apply IH |]. simpl. intros r Hr. lia.
    + eapply Forall_impl; [apply IH |]. simpl. intros r Hr. lia.
Qed.

(** Scanning over a prefix [pre] leaves the scanner at the last element of
    the prefix; the records yielded on the way end inside the prefix. *)
Lemma scan_loop_app (pre rest : list pyval) :
  forall (i : Z) (item : pyval),
  exists first,
    scan_loop i (type_str item, item) (enumerate_from (i + 1) (pre ++ rest))
    = first ++ scan_loop (i + Z.of_nat (length pre))
                 (type_str (List.last pre item), List.last pre item)
                 (enumerate_from (i + Z.of_nat (length pre) + 1) rest)
    /\ Forall (fun r => fst r <= i + Z.of_nat (length pre)) first.
Proof.
  induction pre as [|c pre IH]; intros i item.
  - exists []. simpl. rewrite Z.add_0_r. split; [reflexivity | constructor].
  - destruct (IH (i + 1) c) as (first & Heq & Hle).
    assert (Hlast : List.last (c :: pre) item = List.last pre c).
    { clear. revert item c. induction pre as [|d pre IHp]; intros item c; [reflexivity |].
      change (List.last (c :: d :: pre) item) with (List.last (d :: pre) item).
      rewrite (IHp item d), (IHp c d). reflexivity. }
    rewrite Hlast.
    replace (i + Z.of_nat (length (c :: pre))) with (i + 1 + Z.of_nat (length pre))
      by (simpl length; lia).
    assert (Hle' : Forall (fun r : Z * pyval => fst r <= i + 1 + Z.of_nat (length pre)) first)
      by exact Hle.
    simpl. rewrite tuple_ne_tag. case_bool_decide as Hne.
    + exists ((i + 1, item) :: first). split.
      * simpl. f_equal. exact Heq.
      * constructor; [simpl; lia | exact Hle'].
    + assert (item = c) as -> by (destruct (decide (item = c)); tauto).
      exists first. split; [exact Heq | exact Hle'].
Qed.

Lemma transition_index_cons (h : pyval) (t : list pyval) :
  _transition_index (h :: t)
  = Gen (scan_loop 0 (type_str h, h) (enumerate_from (0 + 1) t)) None.
Proof. reflexivity. Qed.

(** The same, for the whole scanner and a non-empty prefix [pre ++ [x]]. *)
Lemma transition_index_app (pre : list pyval) (x : pyval) (rest : list pyval) :
  exists first,
    yielded (_transition_index ((pre ++ [x]) ++ rest))
    = first ++ scan_loop (Z.of_nat (length pre)) (type_str x, x)
                 (enumerate_from (Z.of_nat (length pre) + 1) rest)
    /\ Forall (fun r => fst r <= Z.of_nat (length pre)) first.
Proof.
  destruct pre as [|h pre].
  - exists []. split; [reflexivity | constructor].
  - change (((h :: pre) ++ [x]) ++ rest) with (h :: (pre ++ [x]) ++ rest).
    rewrite transition_index_cons. simpl yielded.
    destruct (scan_loop_app (pre ++ [x]) rest 0 h) as (first & Heq & Hle).
    rewrite last_last in Heq.
    rewrite length_app in Heq, Hle. simpl length in Heq, Hle.
    replace (0 + Z.of_nat (length pre + 1)%nat) with (Z.of_nat (length (h :: pre))) in Heq, Hle
      by (simpl length; lia).
    exists first. split; [exact Heq | exact Hle].
Qed.

Lemma scan_loop_not_nil (i : Z) (item : string * pyval) (it : list (Z * pyval)) :
  scan_loop i item it <> [].
Proof.
  revert i item. induction it as [|[i' c] it IH]; intros i item; simpl.
  - discriminate.
  - destruct (tuple_ne item (type_str c, c)); [discriminate | apply IH].
Qed.

(** The end indices of the records increase strictly, and the last one is
    the length of the sequence. *)
Lemma scan_loop_end_indices (rest : list pyval) :
  forall (i : Z) (item : string * pyval),
    let recs := scan_loop i item (enumerate_from (i + 1) rest) in
    StronglySorted Z.lt (fst <$> recs) /\
    List.last (fst <$> recs) 0 = i + 1 + Z.of_nat (length rest).
Proof.
  induction rest as [|c rest IH]; intros i item; simpl.
  - split; [repeat constructor | lia].
  - destruct (IH (i + 1) item) as [IHs IHl].
    destruct (IH (i + 1) (type_str c, c)) as [IHs' IHl'].
    destruct (tuple_ne item (type_str c, c)).
    + split.
      * simpl. constructor; [exact IHs' |].
        apply Forall_fmap.
        eapply Forall_impl; [apply (scan_loop_lower rest (i + 1)) |].
        simpl. intros r Hr. lia.
      * pose proof (scan_loop_lower rest (i + 1) (type_str c, c)) as Hlo.
        destruct (scan_loop (i + 1) (type_str c, c) (enumerate_from (i + 1 + 1) rest))
          as [|r recs] eqn:E.
        -- exfalso. exact (scan_loop_not_nil _ _ _ E).
        -- change (List.last (fst <$> (i + 1, snd item) :: r :: recs) 0)
             with (List.last (fst <$> r :: recs) 0).
           rewrite IHl'. lia.
    + split; [exact IHs | rewrite IHl; lia].
Qed.

Lemma transition_index_end_indices (L : list pyval) :
  L <> [] ->
  let recs := yielded (_transition_index L) in
  StronglySorted Z.lt (fst <$> recs) /\
  List.last (fst <$> recs) 0 = Z.of_nat (length L).
Proof.
  intros HL. destruct L as [|h t]; [congruence |].
  rewrite transition_index_cons. simpl yielded.
  destruct (scan_loop_end_indices t 0 (type_str h, h)) as [Hs Hl].
  split; [exact Hs |]. rewrite Hl. simpl length. lia.
Qed.

End scanner.

(** C1. For every non-empty sequence [L], the scanner ends without an
    error, and concatenating, for each record [(end_index, value)] in order,
    the value repeated [end_index - previous end_index] times (previous end
    index starting at 0) gives back [L]: as the very same list, and hence
    element by element under the equality of [(str(type(x)), x)] pairs. *)
Theorem transition_index_expand (L : list pyval) :
  L <> [] ->
  raised (_transition_index L) = None /\
  expand 0 (yielded (_transition_index L)) = L /\
  Forall2 (fun a b => tuple_eq (type_str a, a) (type_str b, b) = true)
    (expand 0 (yielded (_transition_index L))) L.
Proof.
  intros HL. destruct L as [|h t]; [congruence |].
  rewrite transition_index_cons. simpl raised. simpl yielded.
  assert (E : expand 0 (scan_loop 0 (type_str h, h) (enumerate_from (0 + 1) t)) = h :: t).
  { rewrite scan_loop_expand by lia. reflexivity. }
  split; [reflexivity |]. split; [exact E |].
  rewrite E. apply Forall2_same_length_lookup_2; [reflexivity |].
  intros i a b Ha Hb. apply type_str_inj_tag. congruence.
Qed.

Lemma transition_index_expand_witness :
  [PyStr "a"; PyStr "a"; PyInt 1] <> [] /\
  expand 0 (yielded (_transition_index [PyStr "a"; PyStr "a"; PyInt 1]))
  = [PyStr "a"; PyStr "a"; PyInt 1].
Proof.
  split; [discriminate |].
  apply (transition_index_expand [PyStr "a"; PyStr "a"; PyInt 1]). discriminate.
Defined.

(** C2. Adjacent elements are merged into one run only when both their
    stringified type and their value are equal. The documented example
    [['a','a','b',1,2,None,None]] gives
    [[(2,'a'),(3,'b'),(4,1),(5,2),(7,None)]]; the int [1] and the string
    ['1'] stay apart; in general a record ends between two neighbours of
    different types, wherever they stand, and none ends between two
    neighbours of equal type and equal value. *)
Theorem transition_index_merges_by_type_and_value :
  list_of (_transition_index
             [PyStr "a"; PyStr "a"; PyStr "b"; PyInt 1; PyInt 2; PyNone; PyNone])
  = Ok [(2, PyStr "a"); (3, PyStr "b"); (4, PyInt 1); (5, PyInt 2); (7, PyNone)]
  /\ list_of (_transition_index [PyInt 1; PyStr "1"])
     = Ok [(1, PyInt 1); (2, PyStr "1")]
  /\ (forall (pre : list pyval) (x y : pyval) (post : list pyval),
        type_str x <> type_str y ->
        In (Z.of_nat (length pre) + 1, x)
           (yielded (_transition_index (pre ++ x :: y :: post))))
  /\ (forall (pre : list pyval) (x y : pyval) (post : list pyval) (v : pyval),
        type_str x = type_str y -> py_eq x y = true ->
        ~ In (Z.of_nat (length pre) + 1, v)
             (yielded (_transition_index (pre ++ x :: y :: post)))).
Proof.
  split; [reflexivity |]. split; [reflexivity |]. split.
  - intros pre x y post Hty.
    replace (pre ++ x :: y :: post) with ((pre ++ [x]) ++ y :: post)
      by (rewrite <- app_assoc; reflexivity).
    destruct (transition_index_app pre x (y :: post)) as (first & -> & _).
    apply in_or_app. right. simpl. rewrite tuple_ne_tag.
    rewrite bool_decide_eq_true_2 by congruence. left. reflexivity.
  - intros pre x y post v Hty Heq.
    assert (x = y) as <-.
    { apply type_str_inj_tag. unfold tuple_eq. simpl.
      rewrite Hty, String.eqb_refl, Heq. reflexivity. }
    replace (pre ++ x :: x :: post) with ((pre ++ [x]) ++ x :: post)
      by (rewrite <- app_assoc; reflexivity).
    destruct (transition_index_app pre x (x :: post)) as (first & -> & Hle).
    intros Hin. apply in_app_or in Hin as [Hin | Hin].
    + rewrite Forall_forall in Hle. apply list_elem_of_In in Hin.
      specialize (Hle _ Hin). simpl in Hle. lia.
    + simpl in Hin. rewrite tuple_ne_tag in Hin.
      rewrite bool_decide_eq_false_2 in Hin by tauto.
      pose proof (scan_loop_lower post (Z.of_nat (length pre) + 1) (type_str x, x)) as Hlo.
      rewrite Forall_forall in Hlo. apply list_elem_of_In in Hin.
      specialize (Hlo _ Hin). simpl in Hlo. lia.
Qed.

Lemma transition_index_merges_witness :
  In (Z.of_nat (length [PyNone]) + 1, PyBool true)
     (yielded (_transition_index ([PyNone] ++ PyBool true :: PyInt 1 :: [])))
  /\ ~ In (Z.of_nat (length [PyInt 3]) + 1, PyNone)
         (yielded (_transition_index ([PyInt 3] ++ PyNone :: PyNone :: [PyStr ""]))).
Proof.
  split.
  - apply (proj1 (proj2 (proj2 transition_index_merges_by_type_and_value))
             [PyNone] (PyBool true) (PyInt 1) []).
    discriminate.
  - apply (proj2 (proj2 (proj2 transition_index_merges_by_type_and_value))
             [PyInt 3] PyNone PyNone [PyStr ""] PyNone); reflexivity.
Defined.

(** C7. On the empty sequence the scanner fails: iterating its result
    yields no record and ends in an error. *)
Theorem transition_index_empty :
  yielded (_transition_index []) = [] /\
  list_of (_transition_index [])
  = Raise (RuntimeError "generator raised StopIteration").
Proof. split; reflexivity. Qed.

(** ** Drawing code *)

Section drawing.

Context {A B : Type}.

Lemma ret_bind (a : A) (f : A -> M B) : ret a ≫= f = f a.
Proof. unfold mbind, M_bind, bind, ret. destruct (f a). reflexivity. Qed.

End drawing.

(** ** The colour-bar renderer *)

Section color_bar.

Lemma dict_lookup (pairs : list (string * color)) (k : string) :
  k ∈ pairs.*1 -> is_Some (dict pairs !! k).
Proof.
  unfold dict.
  assert (G : forall (m : gmap string color),
             k ∈ pairs.*1 \/ is_Some (m !! k) ->
             is_Some (foldl (fun m kv => <[fst kv := snd kv]> m) m pairs !! k)).
  { induction pairs as [|[k' c] pairs IH]; intros m [Hin | Hm]; simpl.
    - inversion Hin.
    - exact Hm.
    - apply IH. simpl in Hin. apply elem_of_cons in Hin as [-> | Hin].
      + right. rewrite lookup_insert_eq. eauto.
      + left. exact Hin.
    - apply IH. right. destruct (decide (k' = k)) as [-> | Hne].
      + rewrite lookup_insert_eq. eauto.
      + rewrite lookup_insert_ne by exact Hne. exact Hm. }
  intros Hin. apply G. left. exact Hin.
Qed.

Lemma zip_cycle_fst {X Y} (l : list X) (pool : list Y) :
  pool <> [] -> forall cur, (zip_cycle l pool cur).*1 = l.
Proof.
  intros Hpool. induction l as [|a l IH]; intros cur; simpl; [reflexivity |].
  destruct cur as [|b cur]; simpl.
  - destruct pool as [|b pool]; [congruence |]. simpl. f_equal. apply IH.
  - f_equal. apply IH.
Qed.

Lemma elem_of_np_unique (values : list string) (x : string) :
  x ∈ np_unique values <-> x ∈ values.
Proof.
  unfold np_unique. rewrite elem_of_remove_dups.
  rewrite (merge_sort_Permutation str_le values). reflexivity.
Qed.

Lemma scan_loop_values (rest : list pyval) :
  forall (i : Z) (item : pyval),
    Forall (fun r => snd r ∈ item :: rest)
      (scan_loop i (type_str item, item) (enumerate_from (i + 1) rest)).
Proof.
  induction rest as [|c rest IH]; intros i item; simpl.
  - constructor; [simpl; left | constructor].
  - destruct (tuple_ne (type_str item, item) (type_str c, c)) eqn:E.
    + constructor; [simpl; left |].
      eapply Forall_impl; [apply IH |]. simpl. intros r Hr. right. exact Hr.
    + rewrite tuple_ne_tag in E. apply bool_decide_eq_false in E.
      assert (item = c) as <- by (destruct (decide (item = c)); tauto).
      eapply Forall_impl; [apply IH |]. simpl. intros r Hr.
      apply elem_of_cons in Hr as [-> | Hr]; [left | right; right; exact Hr].
Qed.

Lemma transition_index_values (L : list pyval) :
  Forall (fun r => snd r ∈ L) (yielded (_transition_index L)).
Proof.
  destruct L as [|h t]; [constructor |].
  rewrite transition_index_cons. apply scan_loop_values.
Qed.

Lemma color_bar_loop_patches (ax : target) (col : gmap string color)
    (width position : Q) (axis : Z) (label : bool) (recs : list (Z * pyval)) :
  forall prev : Z,
    Forall (fun r => exists s, snd r = PyStr s /\ is_Some (col !! s)) recs ->
    outcome (color_bar_loop ax col width position axis label prev recs) = Ok tt /\
    Forall2 (bar_of_run axis width position)
      (patches (calls (color_bar_loop ax col width position axis label prev recs)))
      (filter (fun run => snd run <> PyStr "") (with_prev prev recs)).
Proof.
  induction recs as [|[i value] recs IH]; intros prev Hcol.
  - split; [reflexivity | constructor].
  - apply Forall_cons in Hcol as [(s & Hs & [c Hc]) Hcol]. simpl in Hs. subst value.
    destruct (IH i Hcol) as [IHo IHp]. clear IH.
    cbn [color_bar_loop with_prev].
    set (rest := color_bar_loop ax col width position axis label i recs) in *.
    destruct (decide (s = "")) as [-> | Hne].
    + (* an empty value: nothing is drawn for this run *)
      change (negb (py_eq (PyStr "") (PyStr ""))) with false. cbv iota.
      rewrite filter_cons_False by (simpl; tauto).
      rewrite ret_bind. split; [exact IHo | exact IHp].
    + assert (Hneq : negb (py_eq (PyStr s) (PyStr "")) = true).
      { simpl. apply negb_true_iff. apply String.eqb_neq. exact Hne. }
      rewrite Hneq. cbv iota.
      rewrite filter_cons_True by (simpl; congruence).
      unfold getitem. rewrite Hc.
      destruct (axis =? 0) eqn:Hax, label;
        (split;
         [ destruct rest as [lr rr]; simpl in IHo |- *; exact IHo
         | destruct rest as [lr rr]; simpl in IHo, IHp |- *; subst rr;
           constructor; [| exact IHp];
           unfold bar_of_run, along, across, rect_extent, rect_thickness;
           rewrite Hax; simpl;
           repeat split; unfold Qeq, half; simpl; lia ]).
Qed.

End color_bar.

(** C3. For every sequence of values, for every width, position, axis and
    label switch, and for every colour list that is not the empty list,
    [_ax_color_bar] adds no rectangle for a run whose value is [''] and
    exactly one for every other run, in order: that rectangle starts at the
    previous run boundary minus 0.5 along the chosen axis, extends over
    [end_index - previous boundary] (so that it ends at [end_index - 0.5]),
    is [width] thick, lies at [position] across the axis and is labelled
    with the value of the run. *)
Theorem ax_color_bar_rectangles (ax : target) (values : list string)
    (width position : Q) (colors : option (list color)) (axis : Z)
    (label : bool) :
  colors <> Some [] ->
  Forall2 (bar_of_run axis width position)
    (patches (calls (_ax_color_bar ax values width position colors axis label)))
    (filter (fun run => snd run <> PyStr "")
       (with_prev 0 (yielded (_transition_index (PyStr <$> values))))).
Proof.
  intros Hcolors. unfold _ax_color_bar.
  set (pool := match colors with None => Dark2 | Some c => c end).
  assert (Hpool : pool <> []).
  { subst pool. destruct colors as [c|]; [congruence | discriminate]. }
  set (col := dict (zip_cycle (np_unique values) pool pool)).
  set (g := _transition_index (PyStr <$> values)).
  destruct (color_bar_loop_patches ax col width position axis label (yielded g) 0)
    as [Ho Hp].
  { pose proof (transition_index_values (PyStr <$> values)) as Hv.
    eapply Forall_impl; [exact Hv |]. simpl. intros r Hr.
    apply list_elem_of_fmap in Hr as (s & -> & Hs). exists s. split; [reflexivity |].
    apply dict_lookup. rewrite zip_cycle_fst by exact Hpool.
    apply elem_of_np_unique. exact Hs. }
  set (loop := color_bar_loop ax col width position axis label 0 (yielded g)) in *.
  unfold iterate. fold loop.
  destruct loop as [l r]. simpl in Ho, Hp. subst r.
  destruct (raised g) as [e|]; simpl; rewrite ?app_nil_r; exact Hp.
Qed.

Lemma ax_color_bar_rectangles_witness :
  Forall2 (bar_of_run 0 (3 # 10) 0)
    (patches (calls (_ax_color_bar gui_xax ["a"; "a"; ""; "b"] (3 # 10) 0 None 0 true)))
    (filter (fun run => snd run <> PyStr "")
       (with_prev 0 (yielded (_transition_index (PyStr <$> ["a"; "a"; ""; "b"]))))).
Proof.
  apply (ax_color_bar_rectangles gui_xax ["a"; "a"; ""; "b"] (3 # 10) 0 None 0 true).
  discriminate.
Defined.

(** ** The heatmap renderer *)

Section heatmap_blocks.

Variables (exp : Experiment) (args : heatmap_args).

Local Abbreviation ax := (axes_used args).
Local Abbreviation ff := (feature_field_used exp args).
Local Abbreviation numcols := (Z.of_nat (shape1 (data exp))).

(** [heatmap] makes the calls of its four blocks in order, up to the first
    block that raises. *)
Lemma heatmap_calls :
  calls (heatmap exp args)
  = calls (heatmap_image exp args ax) ++ calls (heatmap_x exp args ax) ++
    match outcome (heatmap_x exp args ax) with
    | Raise _ => []
    | Ok _ =>
        calls (heatmap_y exp args ax ff numcols) ++
        match outcome (heatmap_y exp args ax ff numcols) with
        | Raise _ => []
        | Ok _ => [(ax, set_format_coord (format_coord exp))]
        end
    end.
Proof.
  unfold heatmap. simpl.
  assert (Hi : outcome (heatmap_image exp args ax) = Ok tt).
  { unfold heatmap_image. destruct (rect args) as [[[[r0 r1] r2] r3]|]; reflexivity. }
  destruct (heatmap_image exp args ax) as [li ri]. simpl in Hi. subst ri.
  destruct (heatmap_x exp args ax) as [lx [[]|ex]];
    [destruct (heatmap_y exp args ax ff numcols) as [ly [[]|ey]] |];
    simpl; rewrite ?app_nil_r; reflexivity.
Qed.

Lemma heatmap_outcome :
  outcome (heatmap exp args)
  = match outcome (heatmap_x exp args ax) with
    | Raise e => Raise e
    | Ok _ =>
        match outcome (heatmap_y exp args ax ff numcols) with
        | Raise e => Raise e
        | Ok _ => Ok ax
        end
    end.
Proof.
  unfold heatmap. simpl.
  assert (Hi : outcome (heatmap_image exp args ax) = Ok tt).
  { unfold heatmap_image. destruct (rect args) as [[[[r0 r1] r2] r3]|]; reflexivity. }
  destruct (heatmap_image exp args ax) as [li ri]. simpl in Hi. subst ri.
  destruct (heatmap_x exp args ax) as [lx [[]|ex]];
    [destruct (heatmap_y exp args ax ff numcols) as [ly [[]|ey]] |];
    reflexivity.
Qed.

(** The image block touches neither ticks nor lines. *)
Lemma heatmap_image_quiet :
  let l := calls (heatmap_image exp args ax) in
  vlines l = [] /\ xticks_set l = [] /\ xticklabels_set l = [] /\
  yticks_set l = [] /\ yticklabels_set l = [] /\
  ylocators_set l = [] /\ yformatters_set l = [].
Proof.
  unfold heatmap_image.
  destruct (rect args) as [[[[r0 r1] r2] r3]|]; simpl; repeat split.
Qed.

(** The x block touches nothing of the y axis, and the y block nothing of
    the x axis. *)
Lemma axvlines_eq (a : target) (l : list Q) :
  axvlines a l = ((fun p => (a, axvline p)) <$> l, Ok tt).
Proof.
  induction l as [|p l IH]; [reflexivity |].
  simpl. rewrite IH. reflexivity.
Qed.

Lemma heatmap_y_quiet :
  let l := calls (heatmap_y exp args ax ff numcols) in
  vlines l = [] /\ xticks_set l = [] /\ xticklabels_set l = [].
Proof.
  unfold heatmap_y. destruct ff as [f|]; [| simpl; repeat split].
  unfold column. destruct (feature_metadata exp !! f) as [c|]; [| simpl; repeat split].
  destruct (yticklabels_max args) as [n|]; [| simpl; repeat split].
  destruct (n =? 0); [simpl; repeat split |].
  destruct (n >? 0); simpl; repeat split.
Qed.

End heatmap_blocks.

Section x_axis.

Lemma transition_index_ok (col : list pyval) :
  col <> [] ->
  exists r recs, _transition_index col = Gen (r :: recs) None.
Proof.
  intros Hcol. destruct col as [|h t]; [congruence |].
  rewrite transition_index_cons.
  destruct (scan_loop 0 (type_str h, h) (enumerate_from (0 + 1) t)) as [|r recs] eqn:E.
  - exfalso. exact (scan_loop_not_nil _ _ _ E).
  - exists r, recs. reflexivity.
Qed.

Lemma inner_cons {X} (a : X) (l : list X) : inner (a :: l) = but_last l.
Proof.
  unfold inner, but_last.
  destruct l as [|b l]; [reflexivity |].
  simpl. rewrite Nat.sub_0_r. reflexivity.
Qed.

(** The positions of the x ticks, as [heatmap] computes them from the
    array [x_pos] of run boundaries shifted by 0.5. *)
Lemma tick_positions (recs : list (Z * pyval)) :
  forall prev : Z,
    let x_pos := (fun p => p - half)%Q <$> (inject_Z prev :: (inject_Z <$> (fst <$> recs))) in
    zip_with (fun a b => a + (b - a) / 2)%Q (but_last x_pos) (but_first x_pos)
    = (fun run : Z * Z * pyval =>
         let a := (inject_Z (fst (fst run)) - half)%Q in
         let b := (inject_Z (snd (fst run)) - half)%Q in
         (a + (b - a) / 2)%Q) <$> with_prev prev recs.
Proof.
  intros prev x_pos.
  replace (but_last x_pos) with (take (length (but_first x_pos)) x_pos)
    by (unfold but_last, but_first; rewrite length_drop; reflexivity).
  rewrite zip_with_take_l. subst x_pos. unfold but_first.
  revert prev. induction recs as [|[i v] recs IH]; intros prev; [reflexivity |].
  simpl. f_equal. apply (IH i).
Qed.

(** With the field present and its column non-empty, the x block runs to
    its end and makes exactly these calls. *)
Lemma heatmap_x_present (exp : Experiment) (args : heatmap_args) (ax : target)
    (field : string) (col : list pyval) :
  sample_field args = Some field ->
  sample_metadata exp !! field = Some col ->
  col <> [] ->
  let recs := yielded (_transition_index col) in
  heatmap_x exp args ax
  = ((ax, set_xlabel field)
       :: ((fun p => (ax, axvline p))
             <$> ((fun r => inject_Z (fst r) - half)%Q <$> but_last recs))
       ++ [(ax, set_xticks
                  ((fun run : Z * Z * pyval =>
                      let a := (inject_Z (fst (fst run)) - half)%Q in
                      let b := (inject_Z (snd (fst run)) - half)%Q in
                      (a + (b - a) / 2)%Q) <$> with_prev 0 recs));
           (ax, set_xticklabels
                  ((fun r => shorten_x (xticklabel_len args) (str (snd r))) <$> recs)
                  (xticklabel_rot args))],
     Ok tt).
Proof.
  intros Hf Hc Hne recs. unfold heatmap_x. rewrite Hf. unfold column. rewrite Hc.
  destruct (transition_index_ok col Hne) as (r & rs & Hg).
  subst recs. rewrite Hg. simpl yielded.
  rewrite ret_bind.
  unfold unzip_records, list_of. simpl raised. simpl yielded. cbv iota.
  set (recs := r :: rs).
  unfold mbind at 1. unfold M_bind, bind, draw.
  rewrite ret_bind.
  rewrite axvlines_eq.
  change (0%Q :: (inject_Z <$> (fst <$> recs)))
    with (inject_Z 0 :: (inject_Z <$> (fst <$> recs))).
  rewrite tick_positions.
  rewrite fmap_cons, inner_cons.
  unfold but_last at 1. rewrite !length_fmap.
  rewrite <- !fmap_take. fold (but_last recs).
  rewrite <- !list_fmap_compose.
  unfold mbind, M_bind, bind. simpl. reflexivity.
Qed.

End x_axis.

Section observations.

Lemma vlines_app (l1 l2 : list (target * call)) :
  vlines (l1 ++ l2) = vlines l1 ++ vlines l2.
Proof. apply flat_map_app. Qed.

Lemma xticks_set_app (l1 l2 : list (target * call)) :
  xticks_set (l1 ++ l2) = xticks_set l1 ++ xticks_set l2.
Proof. apply flat_map_app. Qed.

Lemma xticklabels_set_app (l1 l2 : list (target * call)) :
  xticklabels_set (l1 ++ l2) = xticklabels_set l1 ++ xticklabels_set l2.
Proof. apply flat_map_app. Qed.

Lemma yticks_set_app (l1 l2 : list (target * call)) :
  yticks_set (l1 ++ l2) = yticks_set l1 ++ yticks_set l2.
Proof. apply flat_map_app. Qed.

Lemma yticklabels_set_app (l1 l2 : list (target * call)) :
  yticklabels_set (l1 ++ l2) = yticklabels_set l1 ++ yticklabels_set l2.
Proof. apply flat_map_app. Qed.

Lemma ylocators_set_app (l1 l2 : list (target * call)) :
  ylocators_set (l1 ++ l2) = ylocators_set l1 ++ ylocators_set l2.
Proof. apply flat_map_app. Qed.

Lemma yformatters_set_app (l1 l2 : list (target * call)) :
  yformatters_set (l1 ++ l2) = yformatters_set l1 ++ yformatters_set l2.
Proof. apply flat_map_app. Qed.

Lemma vlines_axvlines (a : target) (l : list Q) :
  vlines ((fun p => (a, axvline p)) <$> l) = l.
Proof. induction l as [|p l IH]; [reflexivity |]. simpl. f_equal. exact IH. Qed.

Lemma xticks_axvlines (a : target) (l : list Q) :
  xticks_set ((fun p => (a, axvline p)) <$> l) = []
  /\ xticklabels_set ((fun p => (a, axvline p)) <$> l) = [].
Proof. induction l as [|p l [IH1 IH2]]; split; simpl; auto. Qed.

End observations.

(** The two halves a long x label is cut to, when the length allowed is at
    least 2: its first and its last [xticklabel_len / 2] characters. *)
Lemma slice_halves (s : string) (n : Z) :
  2 <= n -> n < len s ->
  slice_to s (Z.quot n 2) = String.substring 0 (Z.to_nat (n / 2)) s /\
  slice_from s (- Z.quot n 2)
  = String.substring (String.length s - Z.to_nat (n / 2)) (Z.to_nat (n / 2)) s.
Proof.
  intros Hn Hs. unfold slice_to, slice_from, slice_index, len in *.
  rewrite Z.quot_div_nonneg by lia.
  assert (1 <= n / 2) by (apply Z.div_le_lower_bound; lia).
  assert (n / 2 <= n) by (apply Z.div_le_upper_bound; lia).
  destruct (Z.ltb_spec (n / 2) 0); [lia |].
  destruct (Z.ltb_spec (- (n / 2)) 0); [| lia].
  split; f_equal; lia.
Qed.

(** X19. When [heatmap] is called with a sample field that is present in the
    sample metadata (with at least one sample), it draws one vertical line
    at the end of every run of that column but the last, shifted by 0.5,
    which makes [number of runs - 1] lines, and it sets the x ticks once,
    one per run, at the middle of the run. When moreover [xticklabel_len] is
    [None] or at least 2, it sets the x tick labels once, one per run: the
    stringified run value, replaced by its first and its last
    [int(xticklabel_len / 2)] characters around [".."] when it is longer
    than [xticklabel_len]. *)
Theorem heatmap_sample_axis (exp : Experiment) (args : heatmap_args)
    (field : string) (col : list pyval) :
  sample_field args = Some field ->
  sample_metadata exp !! field = Some col ->
  col <> [] ->
  let recs := yielded (_transition_index col) in
  let l := calls (heatmap exp args) in
  vlines l = (fun r => (inject_Z (fst r) - half)%Q) <$> but_last recs /\
  length (vlines l) = (length recs - 1)%nat /\
  (exists ticks,
     xticks_set l = [ticks] /\
     Forall2 (fun t (run : Z * Z * pyval) =>
                (t == (inject_Z (fst (fst run)) + inject_Z (snd (fst run)) - 1) / 2)%Q)
       ticks (with_prev 0 recs)) /\
  (match xticklabel_len args with Some n => 2 <= n | None => True end ->
   exists labels,
     xticklabels_set l = [labels] /\
     Forall2 (fun lbl (r : Z * pyval) =>
                let s := str (snd r) in
                match xticklabel_len args with
                | None => lbl = s
                | Some n =>
                    if len s >? n
                    then let mid := Z.to_nat (n / 2) in
                         lbl = String.substring 0 mid s +:+ ".." +:+
                               String.substring (String.length s - mid) mid s
                    else lbl = s
                end)
       labels recs).
Proof.
  intros Hf Hc Hne recs l. subst l.
  rewrite heatmap_calls.
  set (ax := axes_used args).
  pose proof (heatmap_x_present exp args ax field col Hf Hc Hne) as Hx.
  fold recs in Hx. simpl in Hx.
  destruct (heatmap_image_quiet exp args) as (Hi1 & Hi2 & Hi3 & _). fold ax in Hi1, Hi2, Hi3.
  set (ff := feature_field_used exp args).
  destruct (heatmap_y_quiet exp args) as (Hy1 & Hy2 & Hy3). fold ax ff in Hy1, Hy2, Hy3.
  set (li := calls (heatmap_image exp args ax)) in *.
  set (ly := calls (heatmap_y exp args ax ff (Z.of_nat (shape1 (data exp))))) in *.
  set (tail := match outcome (heatmap_y exp args ax ff (Z.of_nat (shape1 (data exp)))) with
               | Ok _ => [(ax, set_format_coord (format_coord exp))]
               | Raise _ => []
               end).
  assert (Ht : vlines tail = [] /\ xticks_set tail = [] /\ xticklabels_set tail = []).
  { subst tail. destruct (outcome (heatmap_y exp args ax ff (Z.of_nat (shape1 (data exp)))));
      repeat split. }
  destruct Ht as (Ht1 & Ht2 & Ht3).
  set (lines := (fun r : Z * pyval => (inject_Z (fst r) - half)%Q) <$> but_last recs) in *.
  destruct (xticks_axvlines ax lines) as [Hl2 Hl3].
  pose proof (vlines_axvlines ax lines) as Hl1.
  destruct (heatmap_x exp args ax) as [lx rx]. injection Hx as Hlx Hrx. subst rx.
  simpl outcome. cbv iota. simpl calls.
  change ((ax, set_xlabel field) :: ((fun p => (ax, axvline p)) <$> lines) ++ ?rest)
    with ([(ax, set_xlabel field)] ++ ((fun p => (ax, axvline p)) <$> lines) ++ rest)
    in Hlx.
  assert (Hv : vlines (li ++ lx ++ ly ++ tail) = lines).
  { rewrite !vlines_app, Hi1, Hy1, Ht1, Hlx, !vlines_app, Hl1. simpl.
    rewrite ?app_nil_r. reflexivity. }
  split; [exact Hv |]. split.
  { rewrite Hv. subst lines. rewrite length_fmap. unfold but_last.
    rewrite length_take. lia. }
  split.
  - eexists. split.
    + rewrite !xticks_set_app, Hi2, Hy2, Ht2, Hlx, !xticks_set_app, Hl2. simpl. reflexivity.
    + apply Forall2_fmap_l. apply Forall_Forall2_diag. apply Forall_forall.
      intros [[prev i] v] _. simpl. unfold half. field.
  - intros Hn. eexists. split.
    + rewrite !xticklabels_set_app, Hi3, Hy3, Ht3, Hlx, !xticklabels_set_app, Hl3.
      simpl. reflexivity.
    + apply Forall2_fmap_l. apply Forall_Forall2_diag. apply Forall_forall.
      intros [i v] _. simpl. unfold shorten_x.
      destruct (xticklabel_len args) as [n|]; [| reflexivity].
      destruct (len (str v) >? n) eqn:Hlen; [| reflexivity].
      apply Z.gtb_lt in Hlen.
      destruct (slice_halves (str v) n Hn Hlen) as [-> ->]. reflexivity.
Qed.

Lemma heatmap_sample_axis_witness :
  vlines (calls (heatmap example_exp example_args))
  = (fun r => (inject_Z (fst r) - half)%Q)
      <$> but_last (yielded (_transition_index [PyStr "a"; PyStr "a"; PyInt 1; PyNone]))
  /\ exists labels, xticklabels_set (calls (heatmap example_exp example_args)) = [labels].
Proof.
  pose proof (heatmap_sample_axis example_exp example_args "group"
                [PyStr "a"; PyStr "a"; PyInt 1; PyNone]) as H.
  destruct H as (H & _ & _ & Hl); [reflexivity | reflexivity | discriminate |].
  split; [exact H |].
  destruct Hl as (labels & Hl & _); [simpl; lia |].
  exists labels. exact Hl.
Defined.

(** C4, for a label length below 2. With [xticklabel_len=1] the half length
    [int(1 / 2)] is 0: the first half [i[:0]] is empty, but the second half
    [i[-0:]] is the whole label. The label ["None"] of the last run, longer
    than 1, is set to ["..None"], longer than the label it stands for, where
    its two halves around [".."] were to be shown. *)
Theorem heatmap_xticklabel_len_one :
  Z.quot 1 2 = 0 /\
  slice_to "None" 0 = "" /\
  slice_from "None" (- 0) = "None" /\
  xticklabels_set
    (calls (heatmap example_exp
              (mkArgs (Some "group") FeatureDefault (Some 100) 45 (Some 1) (Some 15)
                 None None None None None None "viridis")))
  = [["a"; "1"; "..None"]].
Proof. repeat split; vm_compute; reflexivity. Qed.

Section y_axis.

Lemma draw_bind_calls {X} (a : target) (c : call) (f : unit -> M X) :
  calls (draw a c ≫= f) = (a, c) :: calls (f tt).
Proof. unfold draw, mbind, M_bind, bind. destruct (f tt). reflexivity. Qed.

(** Whatever its arguments and however it ends, the x block makes calls on
    the x axis only. *)
Lemma heatmap_x_kind (exp : Experiment) (args : heatmap_args) (ax : target) :
  Forall (fun c => x_axis_call (snd c) = true) (calls (heatmap_x exp args ax)).
Proof.
  unfold heatmap_x. destruct (sample_field args) as [field|];
    [| repeat constructor].
  unfold column. destruct (sample_metadata exp !! field) as [col|];
    [| constructor].
  rewrite ret_bind, draw_bind_calls. constructor; [reflexivity |].
  unfold unzip_records.
  destruct (list_of (_transition_index col)) as [[|r recs]|e]; [constructor | | constructor].
  rewrite ret_bind, axvlines_eq.
  unfold mbind, M_bind, bind, draw. simpl calls.
  apply Forall_app. split.
  - apply Forall_fmap. apply Forall_forall. intros q _. reflexivity.
  - repeat constructor.
Qed.

Lemma x_calls_quiet (l : list (target * call)) :
  Forall (fun c => x_axis_call (snd c) = true) l ->
  yticks_set l = [] /\ yticklabels_set l = [] /\
  ylocators_set l = [] /\ yformatters_set l = [].
Proof.
  induction 1 as [|[a c] l Hc _ (IH1 & IH2 & IH3 & IH4)]; [repeat split |].
  simpl in Hc. destruct c; try discriminate; simpl; repeat split; assumption.
Qed.

Lemma heatmap_x_ok (exp : Experiment) (args : heatmap_args) (ax : target) :
  sample_axis_ok exp args -> outcome (heatmap_x exp args ax) = Ok tt.
Proof.
  unfold sample_axis_ok. destruct (sample_field args) as [field|] eqn:Hf.
  - intros (col & Hc & Hne).
    rewrite (heatmap_x_present exp args ax field col Hf Hc Hne). reflexivity.
  - intros _. unfold heatmap_x. rewrite Hf. reflexivity.
Qed.

(** With the feature field present, the y block runs to its end; its calls
    follow [yticklabels_max]. *)
Lemma heatmap_y_present (exp : Experiment) (args : heatmap_args) (ax : target)
    (field : string) (ffield : list pyval) (numcols : Z) :
  feature_metadata exp !! field = Some ffield ->
  let yticklabels := shorten_y (yticklabel_len args) <$> (str <$> ffield) in
  heatmap_y exp args ax (Some field) numcols
  = ((ax, set_ylabel field)
       :: match yticklabels_max args with
          | None => [(ax, set_yticks (range numcols)); (ax, set_yticklabels yticklabels)]
          | Some n =>
              if n =? 0 then [(ax, set_yticks [])]
              else if n >? 0
                   then [(ax, yaxis_set_major_formatter (format_fn yticklabels numcols));
                         (ax, yaxis_set_major_locator n true)]
                   else []
          end,
     Ok tt).
Proof.
  intros Hc yticklabels. unfold heatmap_y, column. rewrite Hc.
  destruct (yticklabels_max args) as [n|]; [| reflexivity].
  destruct (n =? 0); [reflexivity |]. destruct (n >? 0); reflexivity.
Qed.

End y_axis.



(** C6. [heatmap] called with a sample field that is not a column of the
    sample metadata fails with the error "Sample field %r not in sample
    metadata" formatted with that field, having drawn no vertical line and
    set no x tick nor x tick label. Called with a feature field that is not
    a column of the feature metadata it fails as well, having set no y tick,
    y tick label, locator nor formatter; the error is "Feature field %r not
    in feature metadata" formatted with that field whenever the x axis
    before it could be drawn. *)
Theorem heatmap_missing_field (exp : Experiment) (args : heatmap_args) :
  (forall field : string,
     sample_field args = Some field ->
     sample_metadata exp !! field = None ->
     let l := calls (heatmap exp args) in
     outcome (heatmap exp args)
     = Raise (ValueError (Msg "Sample field %r not in sample metadata" [field])) /\
     vlines l = [] /\ xticks_set l = [] /\ xticklabels_set l = [])
  /\
  (forall field : string,
     feature_field_used exp args = Some field ->
     feature_metadata exp !! field = None ->
     let l := calls (heatmap exp args) in
     (exists e, outcome (heatmap exp args) = Raise e) /\
     (sample_axis_ok exp args ->
      outcome (heatmap exp args)
      = Raise (ValueError (Msg "Feature field %r not in feature metadata" [field]))) /\
     yticks_set l = [] /\ yticklabels_set l = [] /\
     ylocators_set l = [] /\ yformatters_set l = []).
Proof.
  split.
  - intros field Hf Hc l. subst l.
    rewrite heatmap_calls, heatmap_outcome.
    set (ax := axes_used args).
    assert (Hx : heatmap_x exp args ax
                 = ([], Raise (ValueError (Msg "Sample field %r not in sample metadata"
                                               [field])))).
    { unfold heatmap_x, column. rewrite Hf, Hc. reflexivity. }
    rewrite Hx. simpl outcome. cbv iota. simpl calls. rewrite !app_nil_r.
    destruct (heatmap_image_quiet exp args) as (Hi1 & Hi2 & Hi3 & _).
    fold ax in Hi1, Hi2, Hi3.
    repeat split; assumption.
  - intros field Hff Hc l. subst l.
    rewrite heatmap_calls, heatmap_outcome. rewrite Hff.
    set (ax := axes_used args).
    assert (Hy : forall numcols,
               heatmap_y exp args ax (Some field) numcols
               = ([], Raise (ValueError (Msg "Feature field %r not in feature metadata"
                                             [field])))).
    { intros numcols. unfold heatmap_y, column. rewrite Hc. reflexivity. }
    rewrite Hy. simpl outcome. cbv iota. simpl calls.
    destruct (heatmap_image_quiet exp args) as (_ & _ & _ & Hi1 & Hi2 & Hi3 & Hi4).
    fold ax in Hi1, Hi2, Hi3, Hi4.
    destruct (x_calls_quiet _ (heatmap_x_kind exp args ax)) as (Hx1 & Hx2 & Hx3 & Hx4).
    split; [| split].
    + destruct (outcome (heatmap_x exp args ax)) as [[]|e]; eauto.
    + intros Hok. rewrite (heatmap_x_ok exp args ax Hok). reflexivity.
    + assert (Hrest : (match outcome (heatmap_x exp args ax) with
                       | Ok _ => @nil (target * call) ++ []
                       | Raise _ => []
                       end) = []).
      { destruct (outcome (heatmap_x exp args ax)); reflexivity. }
      rewrite Hrest, !app_nil_r.
      rewrite !yticks_set_app, !yticklabels_set_app, !ylocators_set_app,
        !yformatters_set_app.
      rewrite Hi1, Hi2, Hi3, Hi4, Hx1, Hx2, Hx3, Hx4. repeat split.
Qed.

Lemma heatmap_missing_field_witness :
  outcome (heatmap example_exp (with_sample_field example_args (Some "subject")))
  = Raise (ValueError (Msg "Sample field %r not in sample metadata" ["subject"]))
  /\ yticks_set (calls (heatmap example_exp
                          (mkArgs None (FeatureField (Some "genus")) None 45 None None
                             None None None None None None "viridis"))) = [].
Proof.
  split.
  - destruct (proj1 (heatmap_missing_field example_exp
                       (with_sample_field example_args (Some "subject")))
                "subject") as [H _]; [reflexivity | reflexivity |].
    exact H.
  - destruct (proj2 (heatmap_missing_field example_exp
                       (mkArgs None (FeatureField (Some "genus")) None 45 None None
                          None None None None None None "viridis"))
                "genus") as (_ & _ & H & _); [reflexivity | reflexivity |].
    exact H.
Defined.

(** ** The coordinate read-out *)

Section readout.

(** For a position that is not left of the first cell, [int(x + 0.5)] is the
    nearest integer. *)
Lemma int_rounds_nonneg (x : Q) :
  (- half <= x)%Q ->
  (inject_Z (int (x + half)) - half <= x)%Q /\
  (x < inject_Z (int (x + half)) + half)%Q.
Proof.
  intros Hx. unfold half in *.
  assert (H0 : (0 <= x + (1 # 2))%Q) by lra.
  assert (Hint : int (x + (1 # 2)) = Qfloor (x + (1 # 2))).
  { unfold int. destruct (x + (1 # 2))%Q as [n d] eqn:E. simpl.
    apply Z.quot_div_nonneg; [| reflexivity].
    unfold Qle in H0. simpl in H0. lia. }
  rewrite Hint.
  pose proof (Qfloor_le (x + (1 # 2))) as Hlo.
  pose proof (Qlt_floor (x + (1 # 2))) as Hhi.
  rewrite inject_Z_plus in Hhi. change (inject_Z 1) with 1%Q in Hhi.
  split; lra.
Qed.

(** At a position that is not left of, nor below, the first cell, the
    read-out reports the value of the nearest cell when that cell is in the
    matrix, and the two coordinates alone otherwise. *)
Lemma format_coord_from_first_cell (exp : Experiment) (x y : Q) :
  (- half <= x)%Q -> (- half <= y)%Q ->
  exists row col : Z,
    (inject_Z row - half <= x < inject_Z row + half)%Q /\
    (inject_Z col - half <= y < inject_Z col + half)%Q /\
    format_coord exp x y
    = if (0 <=? col) && (col <? Z.of_nat (shape1 (data exp)))
         && (0 <=? row) && (row <? Z.of_nat (shape0 (data exp)))
      then Fmt "x=%1.2f, y=%1.2f, z=%1.2f" [x; y; cell (data exp) row col]
      else Fmt "x=%1.2f, y=%1.2f" [x; y].
Proof.
  intros Hx Hy. exists (int (x + half)), (int (y + half)).
  split; [apply int_rounds_nonneg; exact Hx |].
  split; [apply int_rounds_nonneg; exact Hy |].
  reflexivity.
Qed.

End readout.

(** C9, at a position left of the first cell. For [x = -1.2] the nearest row
    is [-1], which is outside the matrix, yet [int(x + 0.5)] is [0]: the
    read-out reports the value of the cell [(0, 0)] where only [x] and [y]
    were to be reported. *)
Theorem format_coord_left_of_first_cell :
  int ((-12 # 10) + half) = 0 /\
  (Qabs (inject_Z (-1) - (-12 # 10)) < Qabs (inject_Z 0 - (-12 # 10)))%Q /\
  format_coord example_exp (-12 # 10) 0
  = Fmt "x=%1.2f, y=%1.2f, z=%1.2f" [(-12 # 10)%Q; 0%Q; cell (data example_exp) 0 0].
Proof. split; [reflexivity |]. split; reflexivity. Qed.

(** ** The sort-and-plot wrapper *)

Section wrapper.

Variable sort_samples : string -> Experiment -> result Experiment.

(** The sort loop only ever replaces the object [newexp] refers to, by the
    experiment sorted field after field. *)
Lemma sort_loop_store (fields : list string) :
  forall (h : gmap addr Experiment) (newexp : addr) (cfield : option string)
         (e0 : Experiment),
    h !! newexp = Some e0 ->
    exists r,
      sort_loop sort_samples h newexp cfield fields
      = Some (<[newexp := sorted_by sort_samples fields e0]> h, r)
      /\ (fields = [] -> r = Ok cfield).
Proof.
  induction fields as [|f fields IH]; intros h newexp cfield e0 He0; simpl.
  - exists (Ok cfield). rewrite insert_id by exact He0. split; reflexivity.
  - rewrite He0. simpl. destruct (sort_samples f e0) as [e'|ex].
    + destruct (IH (<[newexp := e']> h) newexp (Some f) e')
        as (r & Hr & _); [apply lookup_insert_eq |].
      exists r. rewrite Hr, insert_insert_eq. split; [reflexivity | discriminate].
    + exists (Raise ex). rewrite insert_id by exact He0. split; [reflexivity | discriminate].
Qed.

Lemma fresh_not_in_store (h : gmap addr Experiment) :
  h !! fresh (dom h) = None.
Proof. apply not_elem_of_dom. apply is_fresh. Qed.

End wrapper.

(** C8. Whatever [plot_sort] is called with, the object the caller passed
    is the same after the call as before, and so is every other object
    that existed before the call. When sort fields are given, the sorts are
    applied, field after field, to a new object that starts as a copy of
    the caller's, and that object is the only change to the store. *)
Theorem plot_sort_keeps_original
    (_get_database_class : string -> Experiment -> result Database)
    (sort_samples : string -> Experiment -> result Experiment)
    (h : gmap addr Experiment) (exp : addr) (e : Experiment)
    (fields : option names)
    (sample_color_bars feature_color_bars : option names)
    (gui : option string) (dbs : databases_arg) (color_bar_label : bool)
    (kw_sample_field : option (option string)) (kwargs : heatmap_args) :
  h !! exp = Some e ->
  exists h' m,
    plot_sort _get_database_class sort_samples h exp fields
      sample_color_bars feature_color_bars gui dbs color_bar_label
      kw_sample_field kwargs = Some (h', m) /\
    h' !! exp = Some e /\
    (forall a : addr, is_Some (h !! a) -> h' !! a = h !! a) /\
    (fields = None -> h' = h) /\
    (forall fs : names,
       fields = Some fs ->
       exists newexp : addr,
         h !! newexp = None /\
         h' = <[newexp := sorted_by sort_samples (_to_list fs) e]> h).
Proof.
  intros He. unfold plot_sort. destruct fields as [fs|].
  - unfold copy. rewrite He. simpl.
    set (n := fresh (dom h)).
    assert (Hn : h !! n = None) by apply fresh_not_in_store.
    destruct (sort_loop_store sort_samples (_to_list fs) (<[n := e]> h) n None e)
      as (r & Hr & _); [apply lookup_insert_eq |].
    rewrite Hr, insert_insert_eq. simpl.
    set (h' := <[n := sorted_by sort_samples (_to_list fs) e]> h).
    assert (Hexp : h' !! exp = Some e).
    { subst h'. rewrite lookup_insert_ne; [exact He | congruence]. }
    assert (Hframe : forall a : addr, is_Some (h !! a) -> h' !! a = h !! a).
    { intros a [x Hx]. subst h'. rewrite lookup_insert_ne; [reflexivity | congruence]. }
    assert (Hnew : h' !! n = Some (sorted_by sort_samples (_to_list fs) e))
      by apply lookup_insert_eq.
    destruct r as [[cfield|]|ex]; simpl; rewrite Hnew; simpl;
      (eexists _, _; split; [reflexivity |];
       split; [exact Hexp |]; split; [exact Hframe |];
       split; [discriminate |];
       intros fs' Hfs; injection Hfs as <-; exists n; split; [exact Hn | reflexivity]).
  - simpl. rewrite He. simpl.
    eexists _, _. split; [reflexivity |].
    split; [exact He |]. split; [reflexivity |]. split; [reflexivity | discriminate].
Qed.

Lemma plot_sort_keeps_original_witness :
  exists h' m,
    plot_sort (fun _ _ => Ok (mkDatabase true "dbbact")) (fun _ e => Ok e)
      {[ 1%positive := example_exp ]} 1%positive (Some (Name "group"))
      None None (Some "cli") DatabasesDefault true None example_args
    = Some (h', m) /\
    h' !! 1%positive = Some example_exp.
Proof.
  destruct (plot_sort_keeps_original
              (fun _ _ => Ok (mkDatabase true "dbbact")) (fun _ e => Ok e)
              {[ 1%positive := example_exp ]} 1%positive example_exp
              (Some (Name "group")) None None (Some "cli") DatabasesDefault true
              None example_args)
    as (h' & m & H1 & H2 & _); [reflexivity |].
  exists h', m. split; [exact H1 | exact H2].
Defined.

(** C10. For [fields = []], an empty list and not [None], [plot_sort] makes
    its copy, runs the sort loop zero times, and fails on reading the loop
    variable [cfield], which was never bound: it raises
    [UnboundLocalError] before anything is plotted. *)
Theorem plot_sort_empty_fields
    (_get_database_class : string -> Experiment -> result Database)
    (sort_samples : string -> Experiment -> result Experiment)
    (h : gmap addr Experiment) (exp : addr) (e : Experiment)
    (sample_color_bars feature_color_bars : option names)
    (gui : option string) (dbs : databases_arg) (color_bar_label : bool)
    (kw_sample_field : option (option string)) (kwargs : heatmap_args) :
  h !! exp = Some e ->
  exists h',
    plot_sort _get_database_class sort_samples h exp (Some (Names []))
      sample_color_bars feature_color_bars gui dbs color_bar_label
      kw_sample_field kwargs
    = Some (h', ([], Raise (UnboundLocalError "cfield"))).
Proof.
  intros He. unfold plot_sort, copy. rewrite He. simpl.
  rewrite lookup_insert_eq. simpl. eexists. reflexivity.
Qed.

Lemma plot_sort_empty_fields_witness :
  exists h',
    plot_sort (fun _ _ => Ok (mkDatabase true "dbbact")) (fun _ e => Ok e)
      {[ 1%positive := example_exp ]} 1%positive (Some (Names []))
      None None (Some "cli") DatabasesDefault true None example_args
    = Some (h', ([], Raise (UnboundLocalError "cfield"))).
Proof.
  apply (plot_sort_empty_fields
           (fun _ _ => Ok (mkDatabase true "dbbact")) (fun _ e => Ok e)
           {[ 1%positive := example_exp ]} 1%positive example_exp).
  reflexivity.
Defined.

(** * Further properties *)

(** ** The transition scanner: boundaries and number of runs *)

Section scanner_more.

Lemma with_prev_increasing (recs : list (Z * pyval)) :
  forall prev : Z,
    StronglySorted Z.lt (prev :: (fst <$> recs)) ->
    Forall (fun run : Z * Z * pyval => fst (fst run) < snd (fst run))
      (with_prev prev recs).
Proof.
  induction recs as [|[i v] recs IH]; intros prev Hs; simpl; [constructor |].
  apply StronglySorted_inv in Hs as [Hs Hall].
  simpl in Hall. apply Forall_cons in Hall as [Hi _].
  constructor; [simpl; exact Hi | apply IH; exact Hs].
Qed.

Lemma transition_index_sorted_from_0 (L : list pyval) :
  L <> [] ->
  StronglySorted Z.lt (0 :: (fst <$> yielded (_transition_index L))).
Proof.
  intros HL. destruct (transition_index_end_indices L HL) as [Hs _].
  constructor; [exact Hs |].
  destruct L as [|h t]; [congruence |].
  rewrite transition_index_cons. simpl yielded.
  apply Forall_fmap.
  eapply Forall_impl; [apply (scan_loop_lower t 0) |].
  simpl. intros r Hr. lia.
Qed.

Lemma scan_loop_length (rest : list pyval) :
  forall (i : Z) (item : pyval),
    length (scan_loop i (type_str item, item) (enumerate_from (i + 1) rest))
    = S (changes (item :: rest)).
Proof.
  induction rest as [|c rest IH]; intros i item; [reflexivity |].
  cbn [enumerate_from scan_loop]. rewrite tuple_ne_tag.
  change (changes (item :: c :: rest))
    with ((if decide (item = c) then 0 else 1) + changes (c :: rest))%nat.
  case_bool_decide as Hne.
  - rewrite decide_False by exact Hne. simpl length. rewrite IH. reflexivity.
  - assert (item = c) as <- by (destruct (decide (item = c)); tauto).
    rewrite decide_True by reflexivity. rewrite IH. reflexivity.
Qed.

Lemma changes_bound (l : list pyval) : (changes l <= length l - 1)%nat.
Proof.
  induction l as [|x l IH]; [simpl; lia |].
  destruct l as [|y l]; [simpl; lia |].
  change (changes (x :: y :: l))
    with ((if decide (x = y) then 0 else 1) + changes (y :: l))%nat.
  simpl length in *. destruct (decide (x = y)); lia.
Qed.

Lemma scan_loop_constant (n : nat) :
  forall (i : Z) (x : pyval),
    scan_loop i (type_str x, x) (enumerate_from (i + 1) (replicate n x))
    = [(i + 1 + Z.of_nat n, x)].
Proof.
  induction n as [|n IH]; intros i x.
  - simpl. rewrite Z.add_0_r. reflexivity.
  - cbn [replicate enumerate_from scan_loop]. rewrite tuple_ne_tag.
    rewrite bool_decide_eq_false_2 by tauto.
    rewrite IH. do 2 f_equal. lia.
Qed.

End scanner_more.

(** X1. For a non-empty sequence the end indices of the records increase
    strictly, start above 0 and end at the length of the sequence; so every
    run, reaching from the previous end index to its own, holds at least one
    element. *)
Theorem transition_index_boundaries (L : list pyval) :
  L <> [] ->
  let recs := yielded (_transition_index L) in
  StronglySorted Z.lt (0 :: (fst <$> recs)) /\
  List.last (fst <$> recs) 0 = Z.of_nat (length L) /\
  Forall (fun run : Z * Z * pyval => fst (fst run) < snd (fst run))
    (with_prev 0 recs).
Proof.
  intros HL recs. subst recs.
  pose proof (transition_index_sorted_from_0 L HL) as Hs.
  split; [exact Hs |]. split.
  - apply (transition_index_end_indices L HL).
  - apply with_prev_increasing. exact Hs.
Qed.

Lemma transition_index_boundaries_witness :
  List.last (fst <$> yielded (_transition_index [PyInt 1; PyInt 1; PyNone])) 0
  = Z.of_nat (length [PyInt 1; PyInt 1; PyNone]).
Proof.
  destruct (transition_index_boundaries [PyInt 1; PyInt 1; PyNone]) as (_ & H & _);
    [discriminate | exact H].
Defined.

(** X2. The scanner yields one record more than there are places where
    neighbours differ, hence never more records than elements; a sequence
    of one repeated value gives the single record (length, value). *)
Theorem transition_index_count (L : list pyval) :
  L <> [] ->
  length (yielded (_transition_index L)) = S (changes L) /\
  (length (yielded (_transition_index L)) <= length L)%nat /\
  (forall (n : nat) (x : pyval),
     L = replicate (S n) x ->
     yielded (_transition_index L) = [(Z.of_nat (S n), x)]).
Proof.
  intros HL. destruct L as [|h t]; [congruence |].
  rewrite transition_index_cons. simpl yielded.
  rewrite scan_loop_length.
  split; [reflexivity |]. split.
  - pose proof (changes_bound (h :: t)) as Hb. simpl length in *. lia.
  - intros n x E. simpl in E. injection E as -> ->.
    rewrite scan_loop_constant. do 2 f_equal. lia.
Qed.

Lemma transition_index_count_witness :
  length (yielded (_transition_index [PyStr "a"; PyStr "b"; PyStr "b"]))
  = S (changes [PyStr "a"; PyStr "b"; PyStr "b"]).
Proof.
  destruct (transition_index_count [PyStr "a"; PyStr "b"; PyStr "b"]) as (H & _);
    [discriminate | exact H].
Defined.

(** ** The colour-bar renderer: colours, labels and failures *)

Section color_bar_more.

Lemma ascii_compare_trans (a b c : Ascii.ascii) :
  Ascii.compare a b <> Gt -> Ascii.compare b c <> Gt ->
  Ascii.compare a c <> Gt /\
  (Ascii.compare a c = Eq -> Ascii.compare a b = Eq /\ Ascii.compare b c = Eq).
Proof.
  unfold Ascii.compare. rewrite !N.compare_le_iff, !N.compare_eq_iff. lia.
Qed.

Lemma string_compare_trans (s1 : string) :
  forall s2 s3 : string,
    String.compare s1 s2 <> Gt -> String.compare s2 s3 <> Gt ->
    String.compare s1 s3 <> Gt.
Proof.
  induction s1 as [|a s1 IH]; intros [|b s2] [|c s3]; simpl; try congruence.
  intros H1 H2.
  destruct (Ascii.compare a b) eqn:Eab; try congruence;
    destruct (Ascii.compare b c) eqn:Ebc; try congruence;
    destruct (ascii_compare_trans a b c) as [Hac Heq];
    rewrite ?Eab, ?Ebc; try congruence;
    destruct (Ascii.compare a c) eqn:Eac; try congruence;
    try (destruct (Heq eq_refl); congruence).
  apply (IH s2 s3); assumption.
Qed.

#[local] Instance str_le_trans : Transitive str_le.
Proof.
  intros s1 s2 s3. unfold str_le, String.leb. intros H1 H2.
  pose proof (string_compare_trans s1 s2 s3) as T.
  destruct (String.compare s1 s2); destruct (String.compare s2 s3);
    destruct (String.compare s1 s3); try reflexivity; try discriminate;
    exfalso; apply T; congruence.
Qed.

#[local] Instance str_le_total : Total str_le.
Proof. intros s1 s2. apply String.leb_total. Qed.

#[local] Instance str_le_antisym : AntiSymm (=) str_le.
Proof. intros s1 s2. apply String.leb_antisym. Qed.

Lemma remove_dups_sorted (l : list string) :
  StronglySorted str_le l -> StronglySorted str_le (remove_dups l).
Proof.
  induction 1 as [|x l Hs IH Hall]; simpl; [constructor |].
  destruct (decide_rel elem_of x l); [exact IH |].
  constructor; [exact IH |].
  rewrite Forall_forall in *. intros y Hy. apply Hall.
  apply elem_of_remove_dups. exact Hy.
Qed.

Lemma np_unique_sorted (values : list string) :
  StronglySorted str_le (np_unique values) /\ NoDup (np_unique values).
Proof.
  unfold np_unique. split; [| apply NoDup_remove_dups].
  apply remove_dups_sorted. apply StronglySorted_merge_sort; apply _.
Qed.

Lemma np_unique_set (values1 values2 : list string) :
  (forall x, x ∈ values1 <-> x ∈ values2) ->
  np_unique values1 = np_unique values2.
Proof.
  intros Hset.
  destruct (np_unique_sorted values1) as [Hs1 Hn1].
  destruct (np_unique_sorted values2) as [Hs2 Hn2].
  apply (StronglySorted_unique str_le); [exact Hs1 | exact Hs2 |].
  apply NoDup_Permutation; [exact Hn1 | exact Hn2 |].
  intros x. rewrite !elem_of_np_unique. apply Hset.
Qed.

Lemma zip_cycle_lookup {X Y} (l : list X) (pool : list Y) :
  pool <> [] ->
  forall (cur : list Y) (k : nat) (x : X),
    l !! k = Some x ->
    exists y,
      zip_cycle l pool cur !! k = Some (x, y) /\
      (if decide (k < length cur)%nat then cur !! k
       else pool !! ((k - length cur) mod length pool)%nat) = Some y.
Proof.
  intros Hpool.
  assert (Hlen : (0 < length pool)%nat) by (destruct pool; [congruence | simpl; lia]).
  induction l as [|a l IH]; intros cur k x Hk; [discriminate |].
  destruct cur as [|b cur].
  - destruct pool as [|b pool'] eqn:Epool; [congruence |]. rewrite <- Epool in *.
    cbn [zip_cycle]. rewrite Epool. rewrite <- Epool.
    destruct k as [|k].
    + simpl in Hk. injection Hk as ->. exists b. split; [reflexivity |].
      simpl. rewrite Nat.Div0.mod_0_l. rewrite Epool. reflexivity.
    + simpl in Hk. destruct (IH pool' k x Hk) as (y & Hz & Hy).
      exists y. split; [exact Hz |].
      simpl length. rewrite Nat.sub_0_r.
      assert (Hp : length pool = S (length pool')) by (rewrite Epool; reflexivity).
      destruct (decide (k < length pool')%nat) as [Hlt | Hge].
      * rewrite Nat.mod_small by lia. rewrite Epool. simpl. exact Hy.
      * rewrite <- Hy.
        replace (S k) with ((k - length pool') + 1 * length pool)%nat by lia.
        rewrite Nat.Div0.mod_add. reflexivity.
  - cbn [zip_cycle]. destruct k as [|k].
    + simpl in Hk. injection Hk as ->. exists b. split; reflexivity.
    + simpl in Hk. destruct (IH cur k x Hk) as (y & Hz & Hy).
      exists y. split; [exact Hz |]. simpl length.
      destruct (decide (k < length cur)%nat) as [Hlt | Hge].
      * rewrite decide_True by lia. simpl. exact Hy.
      * rewrite decide_False by lia. simpl. exact Hy.
Qed.

Lemma dict_lookup_NoDup (pairs : list (string * color)) (k : string) (v : color) :
  NoDup pairs.*1 -> (k, v) ∈ pairs -> dict pairs !! k = Some v.
Proof.
  unfold dict.
  assert (Hout : forall (l : list (string * color)) (m : gmap string color),
             k ∉ l.*1 ->
             foldl (fun m kv => <[fst kv := snd kv]> m) m l !! k = m !! k).
  { induction l as [|[k' c] l IH]; intros m Hk; [reflexivity |].
    simpl in *. apply not_elem_of_cons in Hk as [Hne Hk].
    rewrite IH by exact Hk. apply lookup_insert_ne. congruence. }
  generalize (∅ : gmap string color).
  induction pairs as [|[k' c] pairs IH]; intros m Hnd Hin; [inversion Hin |].
  simpl in *. apply NoDup_cons in Hnd as [Hk' Hnd].
  apply elem_of_cons in Hin as [E | Hin].
  - injection E as <- <-. rewrite Hout by exact Hk'. apply lookup_insert_eq.
  - apply IH; assumption.
Qed.

(** Whatever the records and the colour table, a rectangle is added only
    with the colour the table holds for the value of its run. *)
Lemma color_bar_loop_colors (ax : target) (col : gmap string color)
    (width position : Q) (axis : Z) (label : bool) (recs : list (Z * pyval)) :
  forall prev : Z,
    Forall (fun r => exists s, rect_label r = PyStr s /\
                               col !! s = Some (rect_facecolor r))
      (patches (calls (color_bar_loop ax col width position axis label prev recs))).
Proof.
  induction recs as [|[i value] recs IH]; intros prev; [constructor |].
  specialize (IH i). cbn [color_bar_loop].
  set (rest := color_bar_loop ax col width position axis label i recs) in *.
  destruct (negb (py_eq value (PyStr ""))); [| rewrite ret_bind; exact IH].
  destruct value as [|b|n|s];
    try (destruct (axis =? 0); constructor).
  unfold getitem. destruct (col !! s) as [c|] eqn:Hc;
    [| destruct (axis =? 0); constructor].
  destruct rest as [lr rr]. simpl in IH.
  destruct (axis =? 0), label; simpl;
    (constructor; [exists s; split; [reflexivity | exact Hc] |]);
    destruct rr; simpl; rewrite ?app_nil_r; try exact IH; constructor.
Qed.

End color_bar_more.

Section color_bar_results.

Variables (ax : target) (values : list string) (width position : Q)
  (colors : option (list color)) (axis : Z) (label : bool).

Local Abbreviation col := (dict (zip_cycle (np_unique values) (palette colors) (palette colors))).
Local Abbreviation recs := (yielded (_transition_index (PyStr <$> values))).
Local Abbreviation loop := (color_bar_loop ax col width position axis label 0 recs).

(** The calls of [_ax_color_bar] are those of its loop; it ends as the loop
    does, unless the scanner fails after it. *)
Lemma ax_color_bar_calls :
  calls (_ax_color_bar ax values width position colors axis label) = calls loop.
Proof.
  unfold _ax_color_bar, iterate. fold (palette colors).
  destruct loop as [l [[]|e]]; [| reflexivity].
  destruct (raised (_transition_index (PyStr <$> values))); simpl;
    rewrite ?app_nil_r; reflexivity.
Qed.

Lemma ax_color_bar_outcome_nonempty :
  values <> [] ->
  outcome (_ax_color_bar ax values width position colors axis label)
  = match outcome loop with Ok _ => Ok ax | Raise e => Raise e end.
Proof.
  intros Hv. unfold _ax_color_bar, iterate. fold (palette colors).
  destruct (transition_index_ok (PyStr <$> values)) as (r & rs & Hg).
  { destruct values; [congruence | discriminate]. }
  rewrite Hg. simpl raised. simpl yielded.
  destruct (color_bar_loop ax col width position axis label 0 (r :: rs)) as [l [[]|e]];
    reflexivity.
Qed.

End color_bar_results.

Lemma zip_cycle_empty_pool {X Y} (l : list X) : zip_cycle l (@nil Y) [] = [].
Proof. destruct l; reflexivity. Qed.

Lemma expand_values (recs : list (Z * pyval)) :
  forall (prev : Z) (x : pyval), x ∈ expand prev recs -> x ∈ snd <$> recs.
Proof.
  induction recs as [|[i v] recs IH]; intros prev x Hx; simpl in *; [exact Hx |].
  apply elem_of_app in Hx as [Hx | Hx].
  - apply elem_of_replicate in Hx as [-> _]. left.
  - right. apply (IH i). exact Hx.
Qed.

(** Every element of a non-empty sequence is the value of some record. *)
Lemma transition_index_expand_values (values : list string) :
  forall x : pyval,
    x ∈ PyStr <$> values ->
    x ∈ snd <$> yielded (_transition_index (PyStr <$> values)).
Proof.
  intros x Hx.
  destruct (PyStr <$> values) as [|h t] eqn:E; [inversion Hx |].
  rewrite transition_index_cons. simpl yielded.
  apply (expand_values _ 0).
  rewrite scan_loop_expand by lia. exact Hx.
Qed.

(** With an empty colour table the loop draws nothing: it runs through when
    every run is empty-valued, and otherwise fails on the first value that
    is not. *)
Lemma color_bar_loop_no_colors (ax : target) (width position : Q) (axis : Z)
    (label : bool) (recs : list (Z * pyval)) :
  forall prev : Z,
    Forall (fun r => exists s, snd r = PyStr s) recs ->
    calls (color_bar_loop ax ∅ width position axis label prev recs) = [] /\
    ((Forall (fun r => snd r = PyStr "") recs /\
      outcome (color_bar_loop ax ∅ width position axis label prev recs) = Ok tt)
     \/ exists s, PyStr s ∈ snd <$> recs /\ s <> "" /\
          outcome (color_bar_loop ax ∅ width position axis label prev recs)
          = Raise (KeyError s)).
Proof.
  induction recs as [|[i value] recs IH]; intros prev Hs.
  - split; [reflexivity |]. left. split; [constructor | reflexivity].
  - apply Forall_cons in Hs as [(s & Hv) Hs]. simpl in Hv. subst value.
    destruct (IH i Hs) as [IHc IHo]. cbn [color_bar_loop].
    set (rest := color_bar_loop ax ∅ width position axis label i recs) in *.
    destruct (decide (s = "")) as [-> | Hne].
    + change (negb (py_eq (PyStr "") (PyStr ""))) with false. cbv iota.
      rewrite ret_bind. split; [exact IHc |].
      destruct IHo as [[Hall Ho] | (s & Hin & Hs' & Ho)].
      * left. split; [constructor; [reflexivity | exact Hall] | exact Ho].
      * right. exists s. split; [right; exact Hin | split; assumption].
    + assert (Hneq : negb (py_eq (PyStr s) (PyStr "")) = true).
      { simpl. apply negb_true_iff. apply String.eqb_neq. exact Hne. }
      rewrite Hneq. cbv iota. unfold getitem. rewrite lookup_empty.
      destruct (axis =? 0); (split; [reflexivity |]); right; exists s;
        (split; [left | split; [exact Hne | reflexivity]]).
Qed.

(** The annotations of the loop: one per rectangle, at its centre. *)
Lemma color_bar_loop_annotations (ax : target) (col : gmap string color)
    (width position : Q) (axis : Z) (label : bool) (recs : list (Z * pyval)) :
  forall prev : Z,
    let l := calls (color_bar_loop ax col width position axis label prev recs) in
    if label
    then Forall2 (fun a r =>
                    a = (rect_label r,
                         (fst (rect_xy r) + rect_width r / 2,
                          snd (rect_xy r) + rect_height r / 2)%Q,
                         if axis =? 0 then 0 else 90))
           (annotations l) (patches l)
    else annotations l = [].
Proof.
  induction recs as [|[i value] recs IH]; intros prev.
  - destruct label; [constructor | reflexivity].
  - specialize (IH i). cbn [color_bar_loop].
    set (rest := color_bar_loop ax col width position axis label i recs) in *.
    destruct (negb (py_eq value (PyStr ""))); [| rewrite ret_bind; exact IH].
    destruct value as [|b|n|s];
      try (destruct (axis =? 0), label; simpl; solve [constructor | reflexivity]).
    unfold getitem. destruct (col !! s) as [c|] eqn:Hc;
      [| destruct (axis =? 0), label; simpl; solve [constructor | reflexivity]].
    destruct rest as [lr rr]. simpl in IH.
    destruct (axis =? 0), label; simpl;
      destruct rr; simpl; rewrite ?app_nil_r;
      solve [ constructor; [reflexivity | exact IH]
            | constructor; [reflexivity | constructor]
            | exact IH | reflexivity ].
Qed.

Lemma dict_lookup_outside (pairs : list (string * color)) (k : string) :
  k ∉ pairs.*1 -> dict pairs !! k = None.
Proof.
  unfold dict. generalize (lookup_empty (M := gmap string) (A := color) k).
  generalize (∅ : gmap string color).
  induction pairs as [|[k' c] pairs IH]; intros m Hm Hk; [exact Hm |].
  simpl in *. apply not_elem_of_cons in Hk as [Hne Hk].
  apply IH; [| exact Hk]. rewrite lookup_insert_ne by congruence. exact Hm.
Qed.

(** X3. The colour of every rectangle of a colour bar is the entry of the
    palette (the given colours, or [Dark2]) at the rank of its value among
    the sorted distinct values, taken modulo the length of the palette. So
    equal values get equal colours, also between two bars whose values form
    the same set, whatever their order and the geometry of the bars. *)
Theorem ax_color_bar_colors (ax : target) (values : list string)
    (width position : Q) (colors : option (list color)) (axis : Z)
    (label : bool) :
  colors <> Some [] ->
  let pool := palette colors in
  let bars := patches (calls (_ax_color_bar ax values width position colors axis label)) in
  StronglySorted str_le (np_unique values) /\
  NoDup (np_unique values) /\
  Forall (fun r => exists (s : string) (k : nat),
                     rect_label r = PyStr s /\
                     np_unique values !! k = Some s /\
                     pool !! (k mod length pool)%nat = Some (rect_facecolor r))
    bars /\
  (forall (ax' : target) (values' : list string) (width' position' : Q)
          (axis' : Z) (label' : bool) (r r' : Rectangle),
     (forall x, x ∈ values <-> x ∈ values') ->
     r ∈ bars ->
     r' ∈ patches (calls (_ax_color_bar ax' values' width' position' colors axis' label')) ->
     rect_label r = rect_label r' ->
     rect_facecolor r = rect_facecolor r').
Proof.
  intros Hcolors pool bars. subst bars.
  assert (Hpool : pool <> []).
  { subst pool. destruct colors as [c|]; [simpl; congruence | discriminate]. }
  destruct (np_unique_sorted values) as [Hs Hn].
  split; [exact Hs |]. split; [exact Hn |]. split.
  - rewrite ax_color_bar_calls.
    eapply Forall_impl; [apply color_bar_loop_colors |].
    intros r (s & Hl & Hc). simpl in Hc. fold pool in Hc.
    assert (Hin : s ∈ np_unique values).
    { destruct (decide (s ∈ np_unique values)) as [Hin | Hout]; [exact Hin |].
      exfalso. rewrite dict_lookup_outside in Hc; [discriminate |].
      rewrite zip_cycle_fst by exact Hpool. exact Hout. }
    apply list_elem_of_lookup in Hin as [k Hk].
    destruct (zip_cycle_lookup (np_unique values) pool Hpool pool k s Hk)
      as (y & Hz & Hy).
    assert (Hy' : pool !! (k mod length pool)%nat = Some y).
    { destruct (decide (k < length pool)%nat) as [Hlt | Hge].
      - rewrite Nat.mod_small by exact Hlt. exact Hy.
      - rewrite <- Hy.
        replace k with ((k - length pool) + 1 * length pool)%nat at 1 by lia.
        rewrite Nat.Div0.mod_add. reflexivity. }
    assert (Hd : dict (zip_cycle (np_unique values) pool pool) !! s = Some y).
    { apply dict_lookup_NoDup.
      - rewrite zip_cycle_fst by exact Hpool. exact Hn.
      - apply list_elem_of_lookup. exists k. exact Hz. }
    exists s, k. split; [exact Hl |]. split; [exact Hk |]. congruence.
  - intros ax' values' width' position' axis' label' r r' Hset Hr Hr' Hlbl.
    rewrite ax_color_bar_calls in Hr, Hr'.
    pose proof (color_bar_loop_colors ax
                  (dict (zip_cycle (np_unique values) (palette colors) (palette colors)))
                  width position axis label
                  (yielded (_transition_index (PyStr <$> values))) 0) as H1.
    pose proof (color_bar_loop_colors ax'
                  (dict (zip_cycle (np_unique values') (palette colors) (palette colors)))
                  width' position' axis' label'
                  (yielded (_transition_index (PyStr <$> values'))) 0) as H2.
    rewrite Forall_forall in H1, H2.
    destruct (H1 r Hr) as (s & Hl & Hc). destruct (H2 r' Hr') as (s' & Hl' & Hc').
    rewrite (np_unique_set values' values) in Hc' by (intros x; symmetry; apply Hset).
    assert (s = s') as <- by congruence. congruence.
Qed.

Lemma ax_color_bar_colors_witness :
  NoDup (np_unique ["b"; "a"; "b"]).
Proof.
  destruct (ax_color_bar_colors gui_xax ["b"; "a"; "b"] (3 # 10) 0 None 0 true)
    as (_ & H & _); [discriminate | exact H].
Defined.

(** X4. With [label=True] a colour bar carries exactly one annotation per
    rectangle, in the same order: the value of the run, placed at the centre
    of the rectangle, not rotated for a bar along the x axis and rotated by
    90 degrees otherwise. With [label=False] it carries none. *)
Theorem ax_color_bar_annotations (ax : target) (values : list string)
    (width position : Q) (colors : option (list color)) (axis : Z)
    (label : bool) :
  let l := calls (_ax_color_bar ax values width position colors axis label) in
  if label
  then Forall2 (fun a r =>
                  a = (rect_label r,
                       (fst (rect_xy r) + rect_width r / 2,
                        snd (rect_xy r) + rect_height r / 2)%Q,
                       if axis =? 0 then 0 else 90))
         (annotations l) (patches l)
  else annotations l = [].
Proof.
  intros l. subst l. rewrite ax_color_bar_calls.
  apply color_bar_loop_annotations.
Qed.

(** X5. How [_ax_color_bar] ends. On an empty sequence it fails with the
    scanner's [RuntimeError], having drawn nothing. On a non-empty sequence
    it returns the axes whenever the colour list is not empty. With the
    empty colour list it never draws anything: it returns the axes when all
    values are [''], and otherwise fails with the [KeyError] of a value that
    is not. *)
Theorem ax_color_bar_outcome (ax : target) (values : list string)
    (width position : Q) (colors : option (list color)) (axis : Z)
    (label : bool) :
  let bar := _ax_color_bar ax values width position colors axis label in
  (values = [] ->
   bar = ([], Raise (RuntimeError "generator raised StopIteration"))) /\
  (values <> [] -> colors <> Some [] -> outcome bar = Ok ax) /\
  (colors = Some [] ->
   calls bar = [] /\
   (values <> [] -> Forall (fun s => s = "") values -> outcome bar = Ok ax) /\
   (~ Forall (fun s => s = "") values ->
    exists s, s ∈ values /\ s <> "" /\ outcome bar = Raise (KeyError s))).
Proof.
  intros bar. subst bar. split; [| split].
  - intros ->. reflexivity.
  - intros Hv Hc. rewrite ax_color_bar_outcome_nonempty by exact Hv.
    assert (Hpool : palette colors <> []).
    { destruct colors as [c|]; [simpl; congruence | discriminate]. }
    destruct (color_bar_loop_patches ax
                (dict (zip_cycle (np_unique values) (palette colors) (palette colors)))
                width position axis label
                (yielded (_transition_index (PyStr <$> values))) 0) as [-> _];
      [| reflexivity].
    pose proof (transition_index_values (PyStr <$> values)) as Hvals.
    eapply Forall_impl; [exact Hvals |]. simpl. intros r Hr.
    apply list_elem_of_fmap in Hr as (s & -> & Hs). exists s. split; [reflexivity |].
    apply dict_lookup. rewrite zip_cycle_fst by exact Hpool.
    apply elem_of_np_unique. exact Hs.
  - intros ->.
    set (recs := yielded (_transition_index (PyStr <$> values))).
    assert (Hstr : Forall (fun r : Z * pyval => exists s, snd r = PyStr s) recs).
    { pose proof (transition_index_values (PyStr <$> values)) as Hvals.
      eapply Forall_impl; [exact Hvals |]. simpl. intros r Hr.
      apply list_elem_of_fmap in Hr as (s & -> & _). exists s. reflexivity. }
    destruct (color_bar_loop_no_colors ax width position axis label recs 0 Hstr)
      as [Hcalls Hout].
    assert (Hcol : dict (zip_cycle (np_unique values) (palette (Some [])) (palette (Some [])))
                   = ∅).
    { simpl. rewrite zip_cycle_empty_pool. reflexivity. }
    split; [| split].
    + rewrite ax_color_bar_calls. rewrite Hcol. exact Hcalls.
    + intros Hv Hall. rewrite ax_color_bar_outcome_nonempty by exact Hv.
      rewrite Hcol. fold recs.
      destruct Hout as [[_ ->] | (s & Hin & Hne & _)]; [reflexivity |].
      exfalso. apply Hne.
      pose proof (transition_index_values (PyStr <$> values)) as Hvals.
      fold recs in Hvals. rewrite Forall_forall in Hvals. rewrite Forall_forall in Hall.
      apply list_elem_of_fmap in Hin as (r & Hr & Hrin).
      specialize (Hvals r Hrin). rewrite <- Hr in Hvals.
      apply list_elem_of_fmap in Hvals as (s' & E & Hs'). injection E as ->.
      apply Hall. exact Hs'.
    + intros Hnall.
      assert (Hv : values <> []) by (intros ->; apply Hnall; constructor).
      rewrite ax_color_bar_outcome_nonempty by exact Hv.
      rewrite Hcol. fold recs.
      destruct Hout as [[Hall _] | (s & Hin & Hne & ->)].
      * exfalso. apply Hnall. apply Forall_forall. intros s Hs.
        pose proof (transition_index_expand_values values) as Hexp.
        assert (Hx : PyStr s ∈ snd <$> recs).
        { apply Hexp. apply list_elem_of_fmap. exists s. split; [reflexivity | exact Hs]. }
        apply list_elem_of_fmap in Hx as (r & Hr & Hrin).
        rewrite Forall_forall in Hall. specialize (Hall r Hrin).
        rewrite <- Hr in Hall. congruence.
      * exists s. split; [| split; [exact Hne | reflexivity]].
        pose proof (transition_index_values (PyStr <$> values)) as Hvals.
        fold recs in Hvals. rewrite Forall_forall in Hvals.
        apply list_elem_of_fmap in Hin as (r & Hr & Hrin).
        specialize (Hvals r Hrin). rewrite <- Hr in Hvals.
        apply list_elem_of_fmap in Hvals as (s' & E & Hs'). injection E as ->.
        exact Hs'.
Qed.

Lemma ax_color_bar_outcome_witness :
  outcome (_ax_color_bar gui_xax ["a"; ""] (3 # 10) 0 None 0 true) = Ok gui_xax
  /\ calls (_ax_color_bar gui_xax ["a"; ""] (3 # 10) 0 (Some []) 0 true) = [].
Proof.
  split.
  - destruct (ax_color_bar_outcome gui_xax ["a"; ""] (3 # 10) 0 None 0 true)
      as (_ & H & _). apply H; discriminate.
  - destruct (ax_color_bar_outcome gui_xax ["a"; ""] (3 # 10) 0 (Some []) 0 true)
      as (_ & _ & H). destruct (H eq_refl) as [H' _]. exact H'.
Defined.

(** ** The heatmap renderer: how it ends, and where it draws *)

Section heatmap_more.

Variables (exp : Experiment) (args : heatmap_args).

Local Abbreviation ax := (axes_used args).
Local Abbreviation ff := (feature_field_used exp args).
Local Abbreviation numcols := (Z.of_nat (shape1 (data exp))).

(** The x block on a column without any sample: the label is set, then the
    scanner fails. *)
Lemma heatmap_x_empty (field : string) :
  sample_field args = Some field ->
  sample_metadata exp !! field = Some [] ->
  heatmap_x exp args ax
  = ([(ax, set_xlabel field)],
     Raise (RuntimeError "generator raised StopIteration")).
Proof.
  intros Hf Hc. unfold heatmap_x, column. rewrite Hf, Hc. reflexivity.
Qed.

Lemma heatmap_x_missing (field : string) :
  sample_field args = Some field ->
  sample_metadata exp !! field = None ->
  heatmap_x exp args ax
  = ([], Raise (ValueError (Msg "Sample field %r not in sample metadata" [field]))).
Proof.
  intros Hf Hc. unfold heatmap_x, column. rewrite Hf, Hc. reflexivity.
Qed.

Lemma heatmap_x_ok_iff :
  (exists u, outcome (heatmap_x exp args ax) = Ok u) <-> sample_axis_ok exp args.
Proof.
  split.
  - intros [u Hu]. unfold sample_axis_ok.
    destruct (sample_field args) as [field|] eqn:Hf; [| exact I].
    destruct (sample_metadata exp !! field) as [[|h t]|] eqn:Hc.
    + rewrite (heatmap_x_empty field Hf Hc) in Hu. discriminate.
    + exists (h :: t). split; [reflexivity | discriminate].
    + rewrite (heatmap_x_missing field Hf Hc) in Hu. discriminate.
  - intros Hok. exists tt. apply heatmap_x_ok. exact Hok.
Qed.

Lemma heatmap_y_ok_iff :
  (exists u, outcome (heatmap_y exp args ax ff numcols) = Ok u)
  <-> feature_axis_ok exp args.
Proof.
  unfold feature_axis_ok. destruct ff as [field|]; [| split; [intros _; exact I |]].
  - split.
    + intros [u Hu]. destruct (feature_metadata exp !! field) as [c|] eqn:Hc; [eauto |].
      unfold heatmap_y, column in Hu. rewrite Hc in Hu. discriminate.
    + intros [c Hc]. exists tt.
      rewrite (heatmap_y_present exp args ax field c numcols Hc). reflexivity.
  - intros _. exists tt. reflexivity.
Qed.

(** Every block draws on the axes it is given. *)
Lemma heatmap_image_target :
  Forall (fun c => fst c = ax) (calls (heatmap_image exp args ax)).
Proof.
  unfold heatmap_image.
  destruct (rect args) as [[[[r0 r1] r2] r3]|]; repeat constructor.
Qed.

Lemma heatmap_x_target :
  Forall (fun c => fst c = ax) (calls (heatmap_x exp args ax)).
Proof.
  unfold heatmap_x. destruct (sample_field args) as [field|];
    [| repeat constructor].
  unfold column. destruct (sample_metadata exp !! field) as [col|];
    [| constructor].
  rewrite ret_bind, draw_bind_calls. constructor; [reflexivity |].
  unfold unzip_records.
  destruct (list_of (_transition_index col)) as [[|r recs]|e]; [constructor | | constructor].
  rewrite ret_bind, axvlines_eq.
  unfold mbind, M_bind, bind, draw. simpl calls.
  apply Forall_app. split.
  - apply Forall_fmap. apply Forall_forall. intros q _. reflexivity.
  - repeat constructor.
Qed.

Lemma heatmap_y_target :
  Forall (fun c => fst c = ax) (calls (heatmap_y exp args ax ff numcols)).
Proof.
  unfold heatmap_y. destruct ff as [f|]; [| repeat constructor].
  unfold column. destruct (feature_metadata exp !! f) as [c|]; [| constructor].
  destruct (yticklabels_max args) as [n|]; [| repeat constructor].
  destruct (n =? 0); [repeat constructor |].
  destruct (n >? 0); repeat constructor.
Qed.

(** No block but the last step installs a read-out. *)
Lemma heatmap_blocks_no_format_coord :
  Forall (fun c => installs_format_coord (snd c) = false)
    (calls (heatmap_image exp args ax) ++ calls (heatmap_x exp args ax) ++
     calls (heatmap_y exp args ax ff numcols)).
Proof.
  rewrite !Forall_app. split; [| split].
  - unfold heatmap_image.
    destruct (rect args) as [[[[r0 r1] r2] r3]|]; repeat constructor.
  - eapply Forall_impl; [apply (heatmap_x_kind exp args ax) |].
    intros [a c] Hc. simpl in *. destruct c; try discriminate; reflexivity.
  - unfold heatmap_y. destruct ff as [f|]; [| repeat constructor].
    unfold column. destruct (feature_metadata exp !! f) as [c|]; [| constructor].
    destruct (yticklabels_max args) as [n|]; [| repeat constructor].
    destruct (n =? 0); [repeat constructor |].
    destruct (n >? 0); repeat constructor.
Qed.

End heatmap_more.

(** X6. [heatmap] returns, with the axes it drew on, exactly when the sample
    field (if any) is a column of the sample metadata with at least one
    sample and the feature field used (if any) is a column of the feature
    metadata. A sample column without any sample makes it fail with the
    scanner's [RuntimeError], after the x label has been set and before any
    x tick. *)
Theorem heatmap_returns_iff (exp : Experiment) (args : heatmap_args) :
  (outcome (heatmap exp args) = Ok (axes_used args)
   <-> sample_axis_ok exp args /\ feature_axis_ok exp args) /\
  (forall field : string,
     sample_field args = Some field ->
     sample_metadata exp !! field = Some [] ->
     outcome (heatmap exp args)
     = Raise (RuntimeError "generator raised StopIteration") /\
     (axes_used args, set_xlabel field) ∈ calls (heatmap exp args) /\
     xticks_set (calls (heatmap exp args)) = []).
Proof.
  split.
  - rewrite heatmap_outcome.
    pose proof (heatmap_x_ok_iff exp args) as Hx.
    pose proof (heatmap_y_ok_iff exp args) as Hy.
    destruct (outcome (heatmap_x exp args (axes_used args))) as [u|e].
    + destruct (outcome (heatmap_y exp args (axes_used args)
                           (feature_field_used exp args)
                           (Z.of_nat (shape1 (data exp))))) as [u'|e'].
      * split; [intros _ | reflexivity].
        split; [apply Hx | apply Hy]; eauto.
      * split; [discriminate |]. intros [_ Hf].
        apply Hy in Hf as [u' Hu']. discriminate.
    + split; [discriminate |]. intros [Hs _].
      apply Hx in Hs as [u' Hu']. discriminate.
  - intros field Hf Hc.
    rewrite heatmap_calls, heatmap_outcome.
    rewrite (heatmap_x_empty exp args field Hf Hc). simpl outcome. cbv iota.
    simpl calls. rewrite app_nil_r.
    split; [reflexivity |]. split.
    + apply elem_of_app. right. left.
    + rewrite xticks_set_app.
      destruct (heatmap_image_quiet exp args) as (_ & -> & _). reflexivity.
Qed.

Lemma heatmap_returns_iff_witness :
  outcome (heatmap example_exp example_args) = Ok (axes_used example_args).
Proof.
  apply (proj1 (heatmap_returns_iff example_exp example_args)). split.
  - exists [PyStr "a"; PyStr "a"; PyInt 1; PyNone]. split; [reflexivity | discriminate].
  - exists [PyStr "k__Bacteria;p__Firmicutes"; PyStr "k__Archaea"]. reflexivity.
Defined.

(** X7. Whatever its arguments and however it ends, [heatmap] first shows
    the transposed (transformed) data as an image, and makes every call on
    one and the same axes: those it was given, or the new ones. The
    coordinate read-out is installed exactly when [heatmap] returns, as its
    last call, and it is the read-out over the untransformed data. *)
Theorem heatmap_draws_on_its_axes (exp : Experiment) (args : heatmap_args) :
  let l := calls (heatmap exp args) in
  (exists rest,
     l = (axes_used args,
          imshow (transpose (data_shown exp args))
            (default (rc_image_cmap args) (cmap args)) (clim args)) :: rest) /\
  Forall (fun c => fst c = axes_used args) l /\
  match outcome (heatmap exp args) with
  | Ok _ =>
      exists before,
        l = before ++ [(axes_used args, set_format_coord (format_coord exp))] /\
        Forall (fun c => installs_format_coord (snd c) = false) before
  | Raise _ => Forall (fun c => installs_format_coord (snd c) = false) l
  end.
Proof.
  intros l. subst l. rewrite heatmap_calls, heatmap_outcome.
  pose proof (heatmap_image_target exp args) as Ti.
  pose proof (heatmap_x_target exp args) as Tx.
  pose proof (heatmap_y_target exp args) as Ty.
  pose proof (heatmap_blocks_no_format_coord exp args) as Hn.
  rewrite !Forall_app in Hn. destruct Hn as (Hni & Hnx & Hny).
  split; [| split].
  - unfold heatmap_image. fold (data_shown exp args).
    destruct (cmap args) as [c|]; destruct (rect args) as [[[[r0 r1] r2] r3]|];
      simpl; eexists; reflexivity.
  - rewrite !Forall_app. split; [exact Ti |]. split; [exact Tx |].
    destruct (outcome (heatmap_x exp args (axes_used args))); [| constructor].
    apply Forall_app. split; [exact Ty |].
    destruct (outcome (heatmap_y exp args (axes_used args)
                         (feature_field_used exp args)
                         (Z.of_nat (shape1 (data exp))))); repeat constructor.
  - destruct (outcome (heatmap_x exp args (axes_used args))).
    + destruct (outcome (heatmap_y exp args (axes_used args)
                           (feature_field_used exp args)
                           (Z.of_nat (shape1 (data exp))))).
      * eexists. split; [rewrite !app_assoc; reflexivity |].
        rewrite !Forall_app. repeat split; assumption.
      * rewrite app_nil_r, !Forall_app. repeat split; assumption.
    + rewrite app_nil_r, !Forall_app. split; assumption.
Qed.
(** ** Tick labels, tick positions and the two callbacks *)

Section strings.

Lemma length_append (s1 s2 : string) :
  String.length (s1 +:+ s2) = (String.length s1 + String.length s2)%nat.
Proof. induction s1 as [|a s1 IH]; simpl; [reflexivity | rewrite IH; reflexivity]. Qed.

Lemma length_substring (s : string) :
  forall n m : nat,
    String.length (String.substring n m s) = Nat.min m (String.length s - n).
Proof.
  induction s as [|a s IH]; intros [|n] [|m];
    cbn [String.substring String.length]; rewrite ?IH; lia.
Qed.

Lemma substring_all (s : string) : String.substring 0 (String.length s) s = s.
Proof. induction s as [|a s IH]; simpl; [reflexivity | f_equal; exact IH]. Qed.

Lemma substring_split (s : string) :
  forall k : nat,
    (k <= String.length s)%nat ->
    s = String.substring 0 k s +:+ String.substring k (String.length s - k) s.
Proof.
  induction s as [|a s IH]; intros [|k] Hk; simpl in Hk; try lia.
  - reflexivity.
  - rewrite Nat.sub_0_r, substring_all. reflexivity.
  - cbn [String.substring String.length Nat.sub].
    change (String a (String.substring 0 k s) +:+ ?y)
      with (String a (String.substring 0 k s +:+ y)).
    f_equal. apply IH. lia.
Qed.

End strings.

(** X8. Lengths of the tick labels. A y label keeps the end of the name and
    is never longer than [yticklabel_len] (for a length of at least 1). An
    x label longer than [xticklabel_len] (at least 2) is replaced by a label
    of [2 * int(xticklabel_len / 2) + 2] characters, which is one or two
    more than [xticklabel_len]; shorter labels are left as they are. *)
Theorem tick_label_lengths (s : string) (n : Z) :
  (1 <= n ->
   len (shorten_y (Some n) s) = Z.min (len s) n /\
   exists front, s = front +:+ shorten_y (Some n) s) /\
  (2 <= n ->
   (len s <= n -> shorten_x (Some n) s = s) /\
   (n < len s ->
    len (shorten_x (Some n) s) = 2 * (n / 2) + 2 /\
    n < len (shorten_x (Some n) s) <= n + 2)).
Proof.
  unfold len. split.
  - intros Hn. unfold shorten_y, slice_from, slice_index, len.
    destruct (Z.gtb_spec (Z.of_nat (String.length s)) n) as [Hgt | Hle].
    + destruct (Z.ltb_spec (- n) 0); [| lia].
      replace (Z.to_nat (Z.max 0 (Z.of_nat (String.length s) + - n)))
        with (String.length s - Z.to_nat n)%nat by lia.
      replace (Z.to_nat (Z.of_nat (String.length s)
                         - Z.max 0 (Z.of_nat (String.length s) + - n)))
        with (String.length s - (String.length s - Z.to_nat n))%nat by lia.
      split.
      * rewrite length_substring. lia.
      * eexists. apply substring_split. lia.
    + split; [lia |]. exists "". reflexivity.
  - intros Hn. unfold shorten_x, len. split.
    + intros Hle. destruct (Z.gtb_spec (Z.of_nat (String.length s)) n); [lia | reflexivity].
    + intros Hlt. destruct (Z.gtb_spec (Z.of_nat (String.length s)) n); [| lia].
      assert (Hs : Z.of_nat (String.length s) = len s) by reflexivity.
      destruct (slice_halves s n Hn) as [-> ->]; [unfold len; lia |].
      rewrite !length_append, !length_substring. simpl String.length.
      assert (1 <= n / 2) by (apply Z.div_le_lower_bound; lia).
      assert (2 * (n / 2) <= n) by (apply Z.mul_div_le; lia).
      assert (n < 2 * (n / 2) + 2).
      { pose proof (Z.mod_pos_bound n 2 ltac:(lia)). pose proof (Z.div_mod n 2 ltac:(lia)). lia. }
      split; lia.
Qed.

Lemma tick_label_lengths_witness :
  len (shorten_y (Some 15) "k__Bacteria;p__Firmicutes") = Z.min (len "k__Bacteria;p__Firmicutes") 15
  /\ len (shorten_x (Some 10) "abcdefghijklmnop") = 2 * (10 / 2) + 2.
Proof.
  split.
  - destruct (proj1 (tick_label_lengths "k__Bacteria;p__Firmicutes" 15)) as [H _];
      [lia | exact H].
  - destruct (proj2 (tick_label_lengths "abcdefghijklmnop" 10)) as [_ H]; [lia |].
    destruct H as [H _]; [reflexivity | exact H].
Defined.

Section callbacks.

Lemma int_floor (q : Q) : (0 <= q)%Q -> int q = Qfloor q.
Proof.
  intros H0. unfold int. destruct q as [n d]. simpl.
  apply Z.quot_div_nonneg; [| reflexivity].
  unfold Qle in H0. simpl in H0. lia.
Qed.

Lemma floor_bounds (q : Q) (n : Z) :
  (0 <= q)%Q -> (q < inject_Z n)%Q -> 0 <= Qfloor q < n.
Proof.
  intros H0 Hn. split.
  - change 0 with (Qfloor 0). apply Qfloor_resp_le. exact H0.
  - rewrite Zlt_Qlt. eapply Qle_lt_trans; [apply Qfloor_le | exact Hn].
Qed.

End callbacks.

(** X9. The y tick formatter of [heatmap]. With one label per feature it
    never fails: for a tick value from 0 up to, but not including, the
    number of features it gives the label of the feature at the integer
    part of the value, and for any other value the empty string. With
    fewer labels than features it fails with [IndexError] at the first
    position without a label. *)
Theorem format_fn_labels (yticklabels : list string) (numcols : Z) :
  (Z.of_nat (length yticklabels) = numcols ->
   forall tick_val : Q,
     ((0 <= tick_val)%Q -> (tick_val < inject_Z numcols)%Q ->
      exists s, yticklabels !! Z.to_nat (Qfloor tick_val) = Some s /\
                format_fn yticklabels numcols tick_val = Ok s) /\
     (~ ((0 <= tick_val)%Q /\ (tick_val < inject_Z numcols)%Q) ->
      format_fn yticklabels numcols tick_val = Ok "")) /\
  (Z.of_nat (length yticklabels) < numcols ->
   format_fn yticklabels numcols (inject_Z (Z.of_nat (length yticklabels)))
   = Raise (IndexError "list index out of range")).
Proof.
  split.
  - intros Hlen tick_val. unfold format_fn. split.
    + intros H0 Hn.
      rewrite (proj2 (Qle_bool_iff 0 tick_val) H0).
      destruct (Qle_bool (inject_Z numcols) tick_val) eqn:E.
      { apply Qle_bool_iff in E. exfalso. apply (Qlt_not_le _ _ Hn E). }
      simpl. rewrite (int_floor tick_val H0).
      destruct (floor_bounds tick_val numcols H0 Hn) as [Hlo Hhi].
      destruct (lookup_lt_is_Some_2 yticklabels (Z.to_nat (Qfloor tick_val)))
        as [s Hs]; [lia |].
      exists s. rewrite Hs. split; reflexivity.
    + intros Hout.
      destruct (Qle_bool 0 tick_val) eqn:E0; [| reflexivity].
      destruct (Qle_bool (inject_Z numcols) tick_val) eqn:E1; [reflexivity |].
      exfalso. apply Hout. split; [apply Qle_bool_iff; exact E0 |].
      apply Qnot_le_lt. intros Hle. apply Qle_bool_iff in Hle. congruence.
  - intros Hlt. unfold format_fn.
    assert (H0 : (0 <= inject_Z (Z.of_nat (length yticklabels)))%Q).
    { change 0%Q with (inject_Z 0). rewrite <- Zle_Qle. lia. }
    rewrite (proj2 (Qle_bool_iff _ _) H0).
    destruct (Qle_bool (inject_Z numcols) (inject_Z (Z.of_nat (length yticklabels)))) eqn:E.
    { apply Qle_bool_iff in E. rewrite <- Zle_Qle in E. lia. }
    simpl. rewrite (int_floor _ H0), Qfloor_Z, Nat2Z.id.
    rewrite (lookup_ge_None_2 yticklabels (length yticklabels)) by lia.
    reflexivity.
Qed.

Lemma format_fn_labels_witness :
  format_fn ["f0"; "f1"] 2 (3 # 2) = Ok "f1"
  /\ format_fn ["f0"] 2 (inject_Z (Z.of_nat (length ["f0"])))
     = Raise (IndexError "list index out of range").
Proof.
  split.
  - destruct (proj1 (proj1 (format_fn_labels ["f0"; "f1"] 2) eq_refl (3 # 2)))
      as (s & Hs & Hf); [discriminate | reflexivity |].
    rewrite Hf. f_equal. vm_compute in Hs. congruence.
  - apply (proj2 (format_fn_labels ["f0"] 2)). reflexivity.
Defined.

(** X10. The coordinate read-out over the cells of the matrix. At a position
    from the lower edge of a cell of the matrix, included, up to a quarter
    of a cell beyond its centre, in x and in y, it reports the untransformed
    value of that cell; the centre of the cell is such a position. At a
    position at or beyond [number of samples - 0.5] in x, or at or beyond
    [number of features - 0.5] in y, it reports the two coordinates only and
    reads no cell. The quarter keeps the sum [x + 0.5], which the code
    rounds to a double, below the next integer, so that the rounding cannot
    change the cell. *)
Theorem format_coord_cells (exp : Experiment) (x y : Q) :
  let numrows := Z.of_nat (shape0 (data exp)) in
  let numcols := Z.of_nat (shape1 (data exp)) in
  (forall row col : Z,
     0 <= row < numrows -> 0 <= col < numcols ->
     (inject_Z row - half <= x)%Q -> (x <= inject_Z row + (1 # 4))%Q ->
     (inject_Z col - half <= y)%Q -> (y <= inject_Z col + (1 # 4))%Q ->
     format_coord exp x y
     = Fmt "x=%1.2f, y=%1.2f, z=%1.2f" [x; y; cell (data exp) row col]) /\
  ((inject_Z numrows - half <= x)%Q \/ (inject_Z numcols - half <= y)%Q ->
   format_coord exp x y = Fmt "x=%1.2f, y=%1.2f" [x; y]).
Proof.
  intros numrows numcols.
  assert (Hnear : forall (v : Q) (k : Z),
             0 <= k -> (inject_Z k - half <= v)%Q -> (v <= inject_Z k + (1 # 4))%Q ->
             int (v + half) = k).
  { intros v k Hk Hlo Hhi.
    assert (H0 : (0 <= inject_Z k)%Q).
    { change 0%Q with (inject_Z 0). rewrite <- Zle_Qle. exact Hk. }
    assert (Hv : (- half <= v)%Q) by (unfold half in *; lra).
    destruct (int_rounds_nonneg v Hv) as [Hl Hh].
    set (r := int (v + half)) in *.
    assert (H1 : (inject_Z (k + -1) < inject_Z r)%Q).
    { rewrite inject_Z_plus. change (inject_Z (-1)) with (-1)%Q. unfold half in *. lra. }
    assert (H2 : (inject_Z r < inject_Z (k + 1))%Q).
    { rewrite inject_Z_plus. change (inject_Z 1) with 1%Q. unfold half in *. lra. }
    rewrite <- Zlt_Qlt in H1, H2. lia. }
  assert (Hfar : forall (v : Q) (n : Z),
            0 <= n -> (inject_Z n - half <= v)%Q -> n <= int (v + half)).
  { intros v n Hn Hlo.
    assert (H0 : (0 <= inject_Z n)%Q).
    { change 0%Q with (inject_Z 0). rewrite <- Zle_Qle. exact Hn. }
    assert (Hv : (- half <= v)%Q) by (unfold half in *; lra).
    destruct (int_rounds_nonneg v Hv) as [Hl Hh].
    set (r := int (v + half)) in *.
    assert (H1 : (inject_Z (n + -1) < inject_Z r)%Q).
    { rewrite inject_Z_plus. change (inject_Z (-1)) with (-1)%Q. unfold half in *. lra. }
    rewrite <- Zlt_Qlt in H1. lia. }
  unfold format_coord, shape. fold numrows numcols. split.
  - intros row col Hrow Hcol Hxl Hxh Hyl Hyh.
    rewrite (Hnear x row), (Hnear y col) by (lia || assumption).
    destruct (Z.leb_spec 0 col); [| lia]. destruct (Z.ltb_spec col numcols); [| lia].
    destruct (Z.leb_spec 0 row); [| lia]. destruct (Z.ltb_spec row numrows); [| lia].
    reflexivity.
  - intros [Hx | Hy].
    + pose proof (Hfar x numrows ltac:(lia) Hx) as Hr.
      destruct (Z.ltb_spec (int (x + half)) numrows); [lia |].
      rewrite !andb_false_r. reflexivity.
    + pose proof (Hfar y numcols ltac:(lia) Hy) as Hc.
      destruct (Z.ltb_spec (int (y + half)) numcols); [lia |].
      rewrite andb_false_r. reflexivity.
Qed.

Lemma format_coord_cells_witness :
  format_coord example_exp (9 # 8) 1
  = Fmt "x=%1.2f, y=%1.2f, z=%1.2f" [(9 # 8)%Q; 1%Q; cell (data example_exp) 1 1] /\
  format_coord example_exp (7 # 2) 0 = Fmt "x=%1.2f, y=%1.2f" [(7 # 2)%Q; 0%Q].
Proof.
  split.
  - apply (proj1 (format_coord_cells example_exp (9 # 8) 1) 1 1);
      (simpl; lia) || discriminate.
  - apply (proj2 (format_coord_cells example_exp (7 # 2) 0)).
    left. discriminate.
Defined.

Section x_ticks.

(** The x ticks [heatmap] sets for a present, non-empty column. *)
Lemma heatmap_xticks (exp : Experiment) (args : heatmap_args)
    (field : string) (col : list pyval) :
  sample_field args = Some field ->
  sample_metadata exp !! field = Some col ->
  col <> [] ->
  xticks_set (calls (heatmap exp args))
  = [(fun run : Z * Z * pyval =>
        let a := (inject_Z (fst (fst run)) - half)%Q in
        let b := (inject_Z (snd (fst run)) - half)%Q in
        (a + (b - a) / 2)%Q) <$> with_prev 0 (yielded (_transition_index col))].
Proof.
  intros Hf Hc Hne. rewrite heatmap_calls.
  pose proof (heatmap_x_present exp args (axes_used args) field col Hf Hc Hne) as Hx.
  simpl in Hx.
  destruct (heatmap_image_quiet exp args) as (_ & Hi & _).
  destruct (heatmap_y_quiet exp args) as (_ & Hy & _).
  destruct (heatmap_x exp args (axes_used args)) as [lx rx].
  injection Hx as Hlx Hrx. subst rx. simpl outcome. cbv iota. simpl calls.
  rewrite !xticks_set_app, Hi, Hy. simpl app.
  assert (Ht : xticks_set
                 (match outcome (heatmap_y exp args (axes_used args)
                                   (feature_field_used exp args)
                                   (Z.of_nat (shape1 (data exp)))) with
                  | Ok _ => [(axes_used args, set_format_coord (format_coord exp))]
                  | Raise _ => []
                  end) = []).
  { destruct (outcome (heatmap_y exp args (axes_used args)
                         (feature_field_used exp args)
                         (Z.of_nat (shape1 (data exp))))); reflexivity. }
  rewrite Ht, app_nil_r. subst lx.
  change ((axes_used args, set_xlabel field) :: ?a ++ ?b)
    with ([(axes_used args, set_xlabel field)] ++ a ++ b).
  rewrite !xticks_set_app.
  destruct (xticks_axvlines (axes_used args)
              ((fun r : Z * pyval => (inject_Z (fst r) - half)%Q)
                 <$> but_last (yielded (_transition_index col)))) as [-> _].
  reflexivity.
Qed.

End x_ticks.

(** X11. For a sample field with a non-empty column, [heatmap] sets one x
    tick per run, and every tick lies strictly inside the span of its run,
    between the boundary [previous end - 0.5] and the boundary
    [end - 0.5] where the vertical lines are drawn. *)
Theorem heatmap_xticks_inside_runs (exp : Experiment) (args : heatmap_args)
    (field : string) (col : list pyval) :
  sample_field args = Some field ->
  sample_metadata exp !! field = Some col ->
  col <> [] ->
  exists ticks : list Q,
    xticks_set (calls (heatmap exp args)) = [ticks] /\
    length ticks = length (yielded (_transition_index col)) /\
    Forall2 (fun t (run : Z * Z * pyval) =>
               (inject_Z (fst (fst run)) - half < t)%Q /\
               (t < inject_Z (snd (fst run)) - half)%Q)
      ticks (with_prev 0 (yielded (_transition_index col))).
Proof.
  intros Hf Hc Hne. eexists. split; [apply (heatmap_xticks exp args field col Hf Hc Hne) |].
  split.
  - rewrite length_fmap.
    generalize 0 at 1. induction (yielded (_transition_index col)) as [|[i v] recs IH];
      intros p; simpl; [reflexivity | f_equal; apply IH].
  - apply Forall2_fmap_l. apply Forall_Forall2_diag.
    pose proof (transition_index_sorted_from_0 col Hne) as Hs.
    apply with_prev_increasing in Hs.
    eapply Forall_impl; [exact Hs |].
    intros [[prev i] v] Hlt. unfold compose. cbn [fst snd] in *.
    rewrite Zlt_Qlt in Hlt. unfold half, Qdiv. change (/ 2)%Q with (1 # 2)%Q.
    split; lra.
Qed.

Lemma heatmap_xticks_inside_runs_witness :
  exists ticks : list Q,
    xticks_set (calls (heatmap example_exp example_args)) = [ticks] /\
    length ticks
    = length (yielded (_transition_index [PyStr "a"; PyStr "a"; PyInt 1; PyNone])).
Proof.
  destruct (heatmap_xticks_inside_runs example_exp example_args "group"
              [PyStr "a"; PyStr "a"; PyInt 1; PyNone])
    as (ticks & H1 & H2 & _); [reflexivity | reflexivity | discriminate |].
  exists ticks. split; [exact H1 | exact H2].
Defined.


(** ** The plot orchestrator: the GUI and its databases *)

Section gui.

Variable _get_database_class : string -> Experiment -> result Database.

Lemma possible_gui_lookup (g : string) :
  (list_to_map possible_gui : gmap string string) !! g
  = if decide (g = "qt5") then Some "PlotGUI_QT5"
    else if decide (g = "cli") then Some "PlotGUI_CLI"
    else if decide (g = "jupyter") then Some "PlotGUI_Jupyter"
    else None.
Proof.
  unfold possible_gui. simpl.
  destruct (decide (g = "qt5")) as [-> | H1]; [apply lookup_insert_eq |].
  rewrite lookup_insert_ne by congruence.
  destruct (decide (g = "cli")) as [-> | H2]; [apply lookup_insert_eq |].
  rewrite lookup_insert_ne by congruence.
  destruct (decide (g = "jupyter")) as [-> | H3]; [apply lookup_insert_eq |].
  rewrite lookup_insert_ne by congruence. apply lookup_empty.
Qed.

(** The loop over the databases keeps the class of the GUI, appends the
    handles in order, and keeps an annotation database once it has one. *)
Lemma link_databases_ok (exp : Experiment) (dbs : list string) :
  forall (g0 g : PlotGUI),
    link_databases _get_database_class exp g0 dbs = Ok g ->
    exists handles : list Database,
      Forall2 (fun name d => _get_database_class name exp = Ok d) dbs handles /\
      gui_class g = gui_class g0 /\
      databases g = databases g0 ++ handles /\
      _annotation_db g
      = match _annotation_db g0 with
        | Some d => Some d
        | None => List.find annotatable handles
        end.
Proof.
  induction dbs as [|name dbs IH]; intros g0 g Hg; simpl in Hg.
  - injection Hg as <-. exists []. rewrite app_nil_r.
    repeat split; [constructor |]. destruct (_annotation_db g0); reflexivity.
  - destruct (_get_database_class name exp) as [cdb|e] eqn:Ecdb; [| discriminate].
    apply IH in Hg as (handles & Hall & Hcls & Hdbs & Hann).
    exists (cdb :: handles). split; [constructor; assumption |].
    destruct (annotatable cdb) eqn:Ea; destruct (_annotation_db g0) as [d0|] eqn:E0;
      simpl in *; rewrite ?E0, ?Ea in *; simpl in *;
      (split; [exact Hcls |]); (split; [rewrite Hdbs, <- app_assoc; reflexivity |]);
      exact Hann.
Qed.

Lemma link_databases_error (exp : Experiment) (dbs : list string) :
  forall (g0 : PlotGUI) (pre : list string) (name : string) (post : list string)
         (e : exn),
    dbs = pre ++ name :: post ->
    Forall (fun n => exists d, _get_database_class n exp = Ok d) pre ->
    _get_database_class name exp = Raise e ->
    link_databases _get_database_class exp g0 dbs = Raise e.
Proof.
  intros g0 pre. revert g0 dbs.
  induction pre as [|n pre IH]; intros g0 dbs name post e -> Hpre He; simpl.
  - rewrite He. reflexivity.
  - apply Forall_cons in Hpre as [[d Hd] Hpre]. rewrite Hd.
    eapply IH; [reflexivity | exact Hpre | exact He].
Qed.

End gui.

(** X12. [_create_plot_gui] fails with [ValueError] for every GUI name other
    than ['qt5'], ['cli'] and ['jupyter'], [None] included, whatever the
    databases. When it returns a GUI, that GUI has the class of the name,
    holds the handles of all the requested databases in the order asked,
    and its annotation database is the first handle that can annotate, or
    none if no handle can. The error of the first database that cannot be
    obtained is raised as it is. *)
Theorem create_plot_gui_result
    (_get_database_class : string -> Experiment -> result Database)
    (exp : Experiment) (gui : option string) (dbs : option (list string)) :
  (gui <> Some "qt5" -> gui <> Some "cli" -> gui <> Some "jupyter" ->
   _create_plot_gui _get_database_class exp gui dbs
   = Raise (ValueError (Msg "Unknown GUI specified: %r. Possible values are: %s"
                            [default "None" gui; "['qt5', 'cli', 'jupyter']"]))) /\
  (forall g : PlotGUI,
     _create_plot_gui _get_database_class exp gui dbs = Ok g ->
     exists (name : string) (names : list string) (handles : list Database),
       gui = Some name /\ dbs = Some names /\
       (name, gui_class g) ∈ possible_gui /\
       Forall2 (fun n d => _get_database_class n exp = Ok d) names handles /\
       databases g = handles /\
       _annotation_db g = List.find annotatable handles) /\
  (forall (name : string) (pre : list string) (db : string) (post : list string)
          (e : exn),
     name = "qt5" \/ name = "cli" \/ name = "jupyter" ->
     gui = Some name ->
     dbs = Some (pre ++ db :: post) ->
     Forall (fun n => exists d, _get_database_class n exp = Ok d) pre ->
     _get_database_class db exp = Raise e ->
     _create_plot_gui _get_database_class exp gui dbs = Raise e).
Proof.
  unfold _create_plot_gui. split; [| split].
  - intros H1 H2 H3. destruct gui as [g|]; [| reflexivity].
    simpl. rewrite possible_gui_lookup.
    repeat (destruct (decide _) as [-> | _]; [congruence |]). reflexivity.
  - intros g Hg. destruct gui as [name|]; [| discriminate]. simpl in Hg.
    rewrite possible_gui_lookup in Hg.
    destruct dbs as [names|];
      [| repeat (destruct (decide _) in Hg); discriminate].
    assert (Hcase : forall cls,
               (name, cls) ∈ possible_gui ->
               link_databases _get_database_class exp (mkPlotGUI cls [] None) names = Ok g ->
               exists (name0 : string) (names0 : list string) (handles : list Database),
                 Some name = Some name0 /\ Some names = Some names0 /\
                 (name0, gui_class g) ∈ possible_gui /\
                 Forall2 (fun n d => _get_database_class n exp = Ok d) names0 handles /\
                 databases g = handles /\
                 _annotation_db g = List.find annotatable handles).
    { intros cls Hin Hl.
      apply link_databases_ok in Hl as (handles & Hall & Hcls & Hdbs & Hann).
      simpl in *. exists name, names, handles. rewrite Hcls.
      repeat split; assumption. }
    destruct (decide (name = "qt5")) as [-> | _].
    { apply (Hcase "PlotGUI_QT5"); [left | exact Hg]. }
    destruct (decide (name = "cli")) as [-> | _].
    { apply (Hcase "PlotGUI_CLI"); [right; left | exact Hg]. }
    destruct (decide (name = "jupyter")) as [-> | _]; [| discriminate].
    apply (Hcase "PlotGUI_Jupyter"); [right; right; left | exact Hg].
  - intros name pre db post e Hname -> -> Hpre He. simpl.
    rewrite possible_gui_lookup.
    assert (Hl : forall cls,
               link_databases _get_database_class exp (mkPlotGUI cls [] None)
                 (pre ++ db :: post) = Raise e).
    { intros cls. eapply link_databases_error; [reflexivity | exact Hpre | exact He]. }
    destruct Hname as [-> | [-> | ->]]; apply Hl.
Qed.

Lemma create_plot_gui_result_witness :
  _create_plot_gui (fun _ _ => Ok (mkDatabase true "dbbact")) example_exp None
    (Some ["dbbact"])
  = Raise (ValueError (Msg "Unknown GUI specified: %r. Possible values are: %s"
                           ["None"; "['qt5', 'cli', 'jupyter']"])).
Proof.
  apply (proj1 (create_plot_gui_result (fun _ _ => Ok (mkDatabase true "dbbact"))
                  example_exp None (Some ["dbbact"]))); discriminate.
Defined.

(** ** The plot orchestrator: what is drawn where *)

Section bars.

Lemma color_bar_loop_target (ax : target) (col : gmap string color)
    (width position : Q) (axis : Z) (label : bool) (recs : list (Z * pyval)) :
  forall prev : Z,
    Forall (fun c => fst c = ax /\ bar_call (snd c) = true)
      (calls (color_bar_loop ax col width position axis label prev recs)).
Proof.
  induction recs as [|[i value] recs IH]; intros prev; [constructor |].
  specialize (IH i). cbn [color_bar_loop].
  set (rest := color_bar_loop ax col width position axis label i recs) in *.
  destruct (negb (py_eq value (PyStr ""))); [| rewrite ret_bind; exact IH].
  destruct value as [|b|n|s];
    try (destruct (axis =? 0); constructor).
  unfold getitem. destruct (col !! s) as [c|] eqn:Hc;
    [| destruct (axis =? 0); constructor].
  destruct rest as [lr rr]. simpl in IH.
  destruct (axis =? 0), label; simpl;
    repeat (constructor; [split; reflexivity |]);
    destruct rr; simpl; rewrite ?app_nil_r; try exact IH; constructor.
Qed.

Lemma ax_color_bar_target (ax : target) (values : list string)
    (width position : Q) (colors : option (list color)) (axis : Z)
    (label : bool) :
  Forall (fun c => fst c = ax /\ bar_call (snd c) = true)
    (calls (_ax_color_bar ax values width position colors axis label)).
Proof. rewrite ax_color_bar_calls. apply color_bar_loop_target. Qed.

Lemma ax_color_bar_ok (ax : target) (values : list string)
    (width position : Q) (axis : Z) (label : bool) :
  values <> [] ->
  outcome (_ax_color_bar ax values width position None axis label) = Ok ax.
Proof.
  intros Hv. rewrite ax_color_bar_outcome_nonempty by exact Hv.
  destruct (color_bar_loop_patches ax
              (dict (zip_cycle (np_unique values) (palette None) (palette None)))
              width position axis label
              (yielded (_transition_index (PyStr <$> values))) 0) as [-> _];
    [| reflexivity].
  pose proof (transition_index_values (PyStr <$> values)) as Hvals.
  eapply Forall_impl; [exact Hvals |]. simpl. intros r Hr.
  apply list_elem_of_fmap in Hr as (s & -> & Hs). exists s. split; [reflexivity |].
  apply dict_lookup. rewrite zip_cycle_fst by discriminate.
  apply elem_of_np_unique. exact Hs.
Qed.

Variables (table : gmap string (list pyval)) (ax : target) (axis : Z)
  (barwidth barspace : Q) (label : bool).

Lemma color_bars_cons (position : Q) (s : string) (fields : list string)
    (col : list pyval) :
  table !! s = Some col ->
  color_bars table ax axis barwidth barspace label position (s :: fields)
  = (_ax_color_bar ax (bar_values col) barwidth position None axis label;;
     color_bars table ax axis barwidth barspace label
       (position + (barspace + barwidth))%Q fields).
Proof.
  intros Hc. cbn [color_bars]. unfold column. rewrite Hc.
  exact (ret_bind col _).
Qed.

Lemma color_bars_target (fields : list string) :
  forall position : Q,
    Forall (fun c => fst c = ax /\ bar_call (snd c) = true)
      (calls (color_bars table ax axis barwidth barspace label position fields)).
Proof.
  induction fields as [|s fields IH]; intros position; [constructor |].
  destruct (table !! s) as [col|] eqn:Hc.
  - rewrite (color_bars_cons position s fields col Hc).
    pose proof (ax_color_bar_target ax (bar_values col) barwidth position None axis label) as Hb.
    specialize (IH (position + (barspace + barwidth))%Q).
    destruct (_ax_color_bar ax (bar_values col) barwidth position None axis label)
      as [lb [a|e]]; [| exact Hb].
    simpl in Hb.
    destruct (color_bars table ax axis barwidth barspace label
                (position + (barspace + barwidth))%Q fields) as [lr rr].
    simpl in IH |- *. apply Forall_app. split; assumption.
  - cbn [color_bars]. unfold column. rewrite Hc. constructor.
Qed.

(** The bars of the columns before a field that is no column are drawn, the
    rest is not. *)
Lemma color_bars_missing (pre : list string) :
  forall (position : Q) (s : string) (post : list string),
    Forall (fun f => exists col, table !! f = Some col /\ col <> []) pre ->
    table !! s = None ->
    color_bars table ax axis barwidth barspace label position (pre ++ s :: post)
    = (calls (color_bars table ax axis barwidth barspace label position pre),
       Raise (KeyError s))
    /\ outcome (color_bars table ax axis barwidth barspace label position pre) = Ok tt.
Proof.
  induction pre as [|f pre IH]; intros position s post Hpre Hs.
  - simpl. unfold column. rewrite Hs. split; reflexivity.
  - apply Forall_cons in Hpre as [(col & Hc & Hne) Hpre].
    change ((f :: pre) ++ s :: post) with (f :: (pre ++ s :: post)).
    rewrite !(color_bars_cons position f _ col Hc).
    destruct (IH (position + (barspace + barwidth))%Q s post Hpre Hs) as [-> Hok].
    assert (Hv : bar_values col <> []).
    { destruct col; [congruence | discriminate]. }
    pose proof (ax_color_bar_ok ax (bar_values col) barwidth position axis label Hv) as Hb.
    destruct (_ax_color_bar ax (bar_values col) barwidth position None axis label)
      as [lb rb]. simpl in Hb. subst rb.
    destruct (color_bars table ax axis barwidth barspace label
                (position + (barspace + barwidth))%Q pre) as [lr rr].
    simpl in Hok. subst rr. split; reflexivity.
Qed.


End bars.

(** X14. A colour-bar field that is not a column of its metadata table
    makes the loop of [plot] fail with the bare [KeyError] of that field:
    the bars of the fields before it (columns with at least one cell) have
    been drawn, those after it are not. *)
Theorem color_bars_missing_field (table : gmap string (list pyval)) (ax : target)
    (axis : Z) (barwidth barspace : Q) (label : bool) (position : Q)
    (pre : list string) (s : string) (post : list string) :
  Forall (fun f => exists col, table !! f = Some col /\ col <> []) pre ->
  table !! s = None ->
  outcome (color_bars table ax axis barwidth barspace label position (pre ++ s :: post))
  = Raise (KeyError s) /\
  calls (color_bars table ax axis barwidth barspace label position (pre ++ s :: post))
  = calls (color_bars table ax axis barwidth barspace label position pre).
Proof.
  intros Hpre Hs.
  destruct (color_bars_missing table ax axis barwidth barspace label pre position s post
              Hpre Hs) as [-> _].
  split; reflexivity.
Qed.

Lemma color_bars_missing_field_witness :
  outcome (color_bars (sample_metadata example_exp) gui_xax 0 (3 # 10) (1 # 20) true 0
             (["group"] ++ "subject" :: []))
  = Raise (KeyError "subject").
Proof.
  destruct (color_bars_missing_field (sample_metadata example_exp) gui_xax 0
              (3 # 10) (1 # 20) true 0 ["group"] "subject" []) as [H _].
  - constructor; [| constructor].
    exists [PyStr "a"; PyStr "a"; PyInt 1; PyNone]. split; [reflexivity | discriminate].
  - reflexivity.
  - exact H.
Defined.


Lemma heatmap_kinds (exp : Experiment) (args : heatmap_args) :
  Forall (fun c => fst c = axes_used args /\ heatmap_call (snd c) = true)
    (calls (heatmap exp args)).
Proof.
  rewrite heatmap_calls.
  assert (Hi : Forall (fun c => fst c = axes_used args /\ heatmap_call (snd c) = true)
                 (calls (heatmap_image exp args (axes_used args)))).
  { unfold heatmap_image.
    destruct (rect args) as [[[[r0 r1] r2] r3]|]; simpl;
      repeat (constructor; [split; reflexivity |]); constructor. }
  assert (Hx : Forall (fun c => fst c = axes_used args /\ heatmap_call (snd c) = true)
                 (calls (heatmap_x exp args (axes_used args)))).
  { pose proof (heatmap_x_target exp args) as T.
    pose proof (heatmap_x_kind exp args (axes_used args)) as K.
    rewrite Forall_forall in T, K. apply Forall_forall. intros [a c] Hc.
    split; [apply (T _ Hc) |]. specialize (K _ Hc). simpl in *.
    destruct c; try discriminate; reflexivity. }
  assert (Hy : Forall (fun c => fst c = axes_used args /\ heatmap_call (snd c) = true)
                 (calls (heatmap_y exp args (axes_used args)
                           (feature_field_used exp args)
                           (Z.of_nat (shape1 (data exp)))))).
  { unfold heatmap_y. destruct (feature_field_used exp args) as [f|];
      [| repeat (constructor; [split; reflexivity |]); constructor].
    unfold column. destruct (feature_metadata exp !! f) as [c|]; [| constructor].
    destruct (yticklabels_max args) as [n|];
      [| simpl; repeat (constructor; [split; reflexivity |]); constructor].
    destruct (n =? 0);
      [simpl; repeat (constructor; [split; reflexivity |]); constructor |].
    destruct (n >? 0); simpl;
      repeat (constructor; [split; reflexivity |]); constructor. }
  rewrite !Forall_app. split; [exact Hi |]. split; [exact Hx |].
  destruct (outcome (heatmap_x exp args (axes_used args))); [| constructor].
  apply Forall_app. split; [exact Hy |].
  destruct (outcome (heatmap_y exp args (axes_used args)
                       (feature_field_used exp args)
                       (Z.of_nat (shape1 (data exp)))));
    repeat (constructor; [split; reflexivity |]); constructor.
Qed.

Section plot_run.

Variable _get_database_class : string -> Experiment -> result Database.
Variables (exp : Experiment) (sample_color_bars feature_color_bars : option names)
  (gui : option string) (dbs : databases_arg) (color_bar_label : bool)
  (kwargs : heatmap_args).

Local Abbreviation the_dbs :=
  (match dbs with
   | DatabasesDefault => Some (heatmap_databases exp)
   | Databases d => d
   end).
Local Abbreviation H := (heatmap exp (with_axes kwargs gui_axes)).
Local Abbreviation S_bars :=
  (match sample_color_bars with
   | Some n => color_bars (sample_metadata exp) gui_xax 0 (3 # 10) (1 # 20)
                 color_bar_label 0 (_to_list n)
   | None => ret tt
   end).
Local Abbreviation F_bars :=
  (match feature_color_bars with
   | Some n => color_bars (feature_metadata exp) gui_yax 1 (3 # 10) (1 # 20)
                 color_bar_label 0 (_to_list n)
   | None => ret tt
   end).

(** [plot] runs the heatmap, the sample bars, the feature bars and the
    activation in this order, up to the first that raises. *)
Lemma plot_steps (g : PlotGUI) :
  _create_plot_gui _get_database_class exp gui the_dbs = Ok g ->
  plot _get_database_class exp sample_color_bars feature_color_bars gui dbs
    color_bar_label kwargs
  = match outcome H with
    | Raise e => (calls H, Raise e)
    | Ok _ =>
        match outcome S_bars with
        | Raise e => (calls H ++ calls S_bars, Raise e)
        | Ok _ =>
            match outcome F_bars with
            | Raise e => (calls H ++ calls S_bars ++ calls F_bars, Raise e)
            | Ok _ =>
                (calls H ++ calls S_bars ++ calls F_bars
                   ++ [(gui_object, activate (gui_class g))], Ok g)
            end
        end
    end.
Proof.
  intros Hg. unfold plot. rewrite Hg.
  change (lift (Ok g) ≫= ?f) with (ret g ≫= f). rewrite ret_bind.
  destruct H as [lh [a|e]]; [| reflexivity].
  destruct S_bars as [ls [[]|e]]; [| reflexivity].
  destruct F_bars as [lf [[]|e]]; reflexivity.
Qed.

Lemma plot_no_gui (e : exn) :
  _create_plot_gui _get_database_class exp gui the_dbs = Raise e ->
  plot _get_database_class exp sample_color_bars feature_color_bars gui dbs
    color_bar_label kwargs = ([], Raise e).
Proof. intros Hg. unfold plot. rewrite Hg. reflexivity. Qed.

End plot_run.

(** X15. [plot] draws nothing when the GUI cannot be created: for a GUI name
    other than ['qt5'], ['cli'] and ['jupyter'] ([None] included) it fails
    with the [ValueError] of [_create_plot_gui]; for a valid name and
    [databases=None] it fails with the [TypeError] of iterating [None]; in
    both cases before the heatmap or anything else is drawn. *)
Theorem plot_without_gui
    (_get_database_class : string -> Experiment -> result Database)
    (exp : Experiment) (sample_color_bars feature_color_bars : option names)
    (gui : option string) (dbs : databases_arg) (color_bar_label : bool)
    (kwargs : heatmap_args) :
  (gui <> Some "qt5" -> gui <> Some "cli" -> gui <> Some "jupyter" ->
   plot _get_database_class exp sample_color_bars feature_color_bars gui dbs
     color_bar_label kwargs
   = ([], Raise (ValueError (Msg "Unknown GUI specified: %r. Possible values are: %s"
                                 [default "None" gui; "['qt5', 'cli', 'jupyter']"])))) /\
  (gui = Some "qt5" \/ gui = Some "cli" \/ gui = Some "jupyter" ->
   dbs = Databases None ->
   plot _get_database_class exp sample_color_bars feature_color_bars gui dbs
     color_bar_label kwargs
   = ([], Raise (TypeError "'NoneType' object is not iterable"))).
Proof.
  split.
  - intros H1 H2 H3. apply plot_no_gui.
    unfold _create_plot_gui. destruct gui as [g|]; [| reflexivity].
    simpl. rewrite possible_gui_lookup.
    repeat (destruct (decide _) as [-> | _]; [congruence |]). reflexivity.
  - intros Hgui ->. apply plot_no_gui.
    destruct Hgui as [-> | [-> | ->]]; reflexivity.
Qed.

Lemma plot_without_gui_witness :
  plot (fun _ _ => Ok (mkDatabase true "dbbact")) example_exp None None
    (Some "tk") DatabasesDefault true example_args
  = ([], Raise (ValueError (Msg "Unknown GUI specified: %r. Possible values are: %s"
                                ["tk"; "['qt5', 'cli', 'jupyter']"]))) /\
  plot (fun _ _ => Ok (mkDatabase true "dbbact")) example_exp None None
    (Some "cli") (Databases None) true example_args
  = ([], Raise (TypeError "'NoneType' object is not iterable")).
Proof.
  split.
  - apply (proj1 (plot_without_gui (fun _ _ => Ok (mkDatabase true "dbbact"))
                    example_exp None None (Some "tk") DatabasesDefault true
                    example_args)); discriminate.
  - apply (proj2 (plot_without_gui (fun _ _ => Ok (mkDatabase true "dbbact"))
                    example_exp None None (Some "cli") (Databases None) true
                    example_args)).
    + right. left. reflexivity.
    + reflexivity.
Defined.

(** X16. Whatever its arguments and however it ends, [plot] makes the calls
    of the heatmap on the main axes of the GUI, adds the rectangles and
    annotations of the colour bars on the x and y strip axes of the GUI, and
    never draws on axes of its own making. The GUI is activated exactly
    when [plot] returns, as the last call, and it is the GUI returned. *)
Theorem plot_draws_on_gui
    (_get_database_class : string -> Experiment -> result Database)
    (exp : Experiment) (sample_color_bars feature_color_bars : option names)
    (gui : option string) (dbs : databases_arg) (color_bar_label : bool)
    (kwargs : heatmap_args) :
  let run := plot _get_database_class exp sample_color_bars feature_color_bars
               gui dbs color_bar_label kwargs in
  Forall (fun c =>
            (fst c = gui_axes /\ heatmap_call (snd c) = true) \/
            ((fst c = gui_xax \/ fst c = gui_yax) /\ bar_call (snd c) = true) \/
            (fst c = gui_object /\ activation (snd c) = true))
    (calls run) /\
  match outcome run with
  | Ok g =>
      exists before,
        calls run = before ++ [(gui_object, activate (gui_class g))] /\
        Forall (fun c => activation (snd c) = false) before
  | Raise _ => Forall (fun c => activation (snd c) = false) (calls run)
  end.
Proof.
  intros run. subst run.
  destruct (_create_plot_gui _get_database_class exp gui
              match dbs with
              | DatabasesDefault => Some (heatmap_databases exp)
              | Databases d => d
              end) as [g|e] eqn:Hg.
  2:{ rewrite (plot_no_gui _ _ _ _ _ _ _ _ e Hg). split; constructor. }
  rewrite (plot_steps _ _ _ _ _ _ _ _ g Hg).
  pose proof (heatmap_kinds exp (with_axes kwargs gui_axes)) as Kh.
  change (axes_used (with_axes kwargs gui_axes)) with gui_axes in Kh.
  set (H := heatmap exp (with_axes kwargs gui_axes)) in *.
  assert (Ks : Forall (fun c => fst c = gui_xax /\ bar_call (snd c) = true)
                 (calls match sample_color_bars with
                        | Some n => color_bars (sample_metadata exp) gui_xax 0
                                      (3 # 10) (1 # 20) color_bar_label 0 (_to_list n)
                        | None => ret tt
                        end)).
  { destruct sample_color_bars; [apply color_bars_target | constructor]. }
  assert (Kf : Forall (fun c => fst c = gui_yax /\ bar_call (snd c) = true)
                 (calls match feature_color_bars with
                        | Some n => color_bars (feature_metadata exp) gui_yax 1
                                      (3 # 10) (1 # 20) color_bar_label 0 (_to_list n)
                        | None => ret tt
                        end)).
  { destruct feature_color_bars; [apply color_bars_target | constructor]. }
  set (S_bars := match sample_color_bars with
                 | Some n => color_bars (sample_metadata exp) gui_xax 0
                               (3 # 10) (1 # 20) color_bar_label 0 (_to_list n)
                 | None => ret tt
                 end) in *.
  set (F_bars := match feature_color_bars with
                 | Some n => color_bars (feature_metadata exp) gui_yax 1
                               (3 # 10) (1 # 20) color_bar_label 0 (_to_list n)
                 | None => ret tt
                 end) in *.
  assert (Ah : Forall (fun c => activation (snd c) = false) (calls H)).
  { eapply Forall_impl; [exact Kh |]. intros [a c] [_ Hc]. simpl in *.
    destruct c; try discriminate; reflexivity. }
  assert (As : Forall (fun c => activation (snd c) = false) (calls S_bars)).
  { eapply Forall_impl; [exact Ks |]. intros [a c] [_ Hc]. simpl in *.
    destruct c; try discriminate; reflexivity. }
  assert (Af : Forall (fun c => activation (snd c) = false) (calls F_bars)).
  { eapply Forall_impl; [exact Kf |]. intros [a c] [_ Hc]. simpl in *.
    destruct c; try discriminate; reflexivity. }
  assert (Kh' : Forall (fun c =>
                   (fst c = gui_axes /\ heatmap_call (snd c) = true) \/
                   ((fst c = gui_xax \/ fst c = gui_yax) /\ bar_call (snd c) = true) \/
                   (fst c = gui_object /\ activation (snd c) = true)) (calls H)).
  { eapply Forall_impl; [exact Kh |]. intros c Hc. left. exact Hc. }
  assert (Ks' : Forall (fun c =>
                   (fst c = gui_axes /\ heatmap_call (snd c) = true) \/
                   ((fst c = gui_xax \/ fst c = gui_yax) /\ bar_call (snd c) = true) \/
                   (fst c = gui_object /\ activation (snd c) = true)) (calls S_bars)).
  { eapply Forall_impl; [exact Ks |]. intros c [Hc1 Hc2]. right. left. tauto. }
  assert (Kf' : Forall (fun c =>
                   (fst c = gui_axes /\ heatmap_call (snd c) = true) \/
                   ((fst c = gui_xax \/ fst c = gui_yax) /\ bar_call (snd c) = true) \/
                   (fst c = gui_object /\ activation (snd c) = true)) (calls F_bars)).
  { eapply Forall_impl; [exact Kf |]. intros c [Hc1 Hc2]. right. left. tauto. }
  destruct (outcome H); [| split; assumption].
  destruct (outcome S_bars);
    [| simpl; rewrite !Forall_app; repeat split; assumption].
  destruct (outcome F_bars);
    [| simpl; rewrite !Forall_app; repeat split; assumption].
  simpl. split.
  - rewrite !Forall_app. repeat split; try assumption.
    constructor; [| constructor]. right. right. split; reflexivity.
  - exists (calls H ++ calls S_bars ++ calls F_bars).
    split; [rewrite <- !app_assoc; reflexivity |].
    rewrite !Forall_app. repeat split; assumption.
Qed.





(** ** The sort-and-plot wrapper: what is plotted *)

Section wrapper_more.

Variable sort_samples : string -> Experiment -> result Experiment.

Lemma sort_loop_result (fields : list string) :
  forall (h : gmap addr Experiment) (newexp : addr) (cfield : option string)
         (e0 : Experiment),
    h !! newexp = Some e0 ->
    sort_loop sort_samples h newexp cfield fields
    = Some (<[newexp := sorted_by sort_samples fields e0]> h,
            match sort_error sort_samples fields e0 with
            | Some ex => Raise ex
            | None => Ok (match last fields with
                          | Some f => Some f
                          | None => cfield
                          end)
            end).
Proof.
  induction fields as [|f fields IH]; intros h newexp cfield e0 He0; simpl.
  - rewrite insert_id by exact He0. reflexivity.
  - rewrite He0. simpl. destruct (sort_samples f e0) as [e'|ex].
    + rewrite (IH _ newexp (Some f) e') by apply lookup_insert_eq.
      rewrite insert_insert_eq. f_equal. f_equal.
      destruct (sort_error sort_samples fields e'); [reflexivity |].
      rewrite last_cons. destruct (last fields); reflexivity.
    + rewrite insert_id by exact He0. reflexivity.
Qed.

End wrapper_more.

(** X17. What [plot_sort] plots. Without sort fields it plots the caller's
    experiment as it is, with the sample field of [kwargs], or none. With
    sort fields that all sort without error it plots the copy sorted field
    after field, and the x axis shows the last sort field unless [kwargs]
    names a sample field of its own. *)
Theorem plot_sort_plots
    (_get_database_class : string -> Experiment -> result Database)
    (sort_samples : string -> Experiment -> result Experiment)
    (h : gmap addr Experiment) (exp : addr) (e : Experiment)
    (fields : option names)
    (sample_color_bars feature_color_bars : option names)
    (gui : option string) (dbs : databases_arg) (color_bar_label : bool)
    (kw_sample_field : option (option string)) (kwargs : heatmap_args) :
  h !! exp = Some e ->
  (fields = None ->
   plot_sort _get_database_class sort_samples h exp fields
     sample_color_bars feature_color_bars gui dbs color_bar_label
     kw_sample_field kwargs
   = Some (h,
           plot _get_database_class e sample_color_bars feature_color_bars gui dbs
             color_bar_label
             (with_sample_field kwargs (default None kw_sample_field)))) /\
  (forall (fs : names) (last_field : string),
     fields = Some fs ->
     last (_to_list fs) = Some last_field ->
     sort_error sort_samples (_to_list fs) e = None ->
     plot_sort _get_database_class sort_samples h exp fields
       sample_color_bars feature_color_bars gui dbs color_bar_label
       kw_sample_field kwargs
     = Some (<[fresh (dom h) := sorted_by sort_samples (_to_list fs) e]> h,
             plot _get_database_class (sorted_by sort_samples (_to_list fs) e)
               sample_color_bars feature_color_bars gui dbs color_bar_label
               (with_sample_field kwargs
                  (default (Some last_field) kw_sample_field)))).
Proof.
  intros He. split.
  - intros ->. unfold plot_sort. simpl. rewrite He. simpl.
    f_equal. f_equal. destruct kw_sample_field; simpl;
      match goal with |- (let '(l, r) := ?p in (l, r)) = _ => destruct p end;
      reflexivity.
  - intros fs last_field -> Hlast Herr. unfold plot_sort, copy. rewrite He. simpl.
    rewrite (sort_loop_result sort_samples (_to_list fs) _ (fresh (dom h)) None e)
      by apply lookup_insert_eq.
    rewrite Herr, Hlast, insert_insert_eq. simpl.
    rewrite lookup_insert_eq. simpl.
    f_equal. f_equal. destruct kw_sample_field; simpl;
      match goal with |- (let '(l, r) := ?p in (l, r)) = _ => destruct p end;
      reflexivity.
Qed.

Lemma plot_sort_plots_witness :
  plot_sort (fun _ _ => Ok (mkDatabase true "dbbact")) (fun _ e => Ok e)
    {[ 1%positive := example_exp ]} 1%positive None
    None None (Some "cli") DatabasesDefault true None example_args
  = Some ({[ 1%positive := example_exp ]},
          plot (fun _ _ => Ok (mkDatabase true "dbbact")) example_exp None None
            (Some "cli") DatabasesDefault true
            (with_sample_field example_args None)) /\
  plot_sort (fun _ _ => Ok (mkDatabase true "dbbact")) (fun _ e => Ok e)
    {[ 1%positive := example_exp ]} 1%positive
    (Some (Names ["subject"; "group"]))
    None None (Some "cli") DatabasesDefault true None example_args
  = Some (<[fresh (dom ({[ 1%positive := example_exp ]} : gmap addr Experiment))
            := example_exp]> {[ 1%positive := example_exp ]},
          plot (fun _ _ => Ok (mkDatabase true "dbbact")) example_exp None None
            (Some "cli") DatabasesDefault true
            (with_sample_field example_args (Some "group"))).
Proof.
  split.
  - refine (proj1 (plot_sort_plots (fun _ _ => Ok (mkDatabase true "dbbact"))
                     (fun _ e => Ok e) {[ 1%positive := example_exp ]} 1%positive
                     example_exp None None None (Some "cli") DatabasesDefault true
                     None example_args _) _).
    + vm_compute. reflexivity.
    + reflexivity.
  - refine (proj2 (plot_sort_plots (fun _ _ => Ok (mkDatabase true "dbbact"))
                     (fun _ e => Ok e) {[ 1%positive := example_exp ]} 1%positive
                     example_exp (Some (Names ["subject"; "group"])) None None
                     (Some "cli") DatabasesDefault true
                     None example_args _)
                  (Names ["subject"; "group"]) "group" _ _ _).
    + vm_compute. reflexivity.
    + reflexivity.
    + reflexivity.
    + reflexivity.
Defined.

(** X18. When one of the sorts of [plot_sort] fails, the error of the first
    failing sort is raised as it is and nothing is plotted; the copy is left
    sorted by the fields before the failing one. *)
Theorem plot_sort_sort_fails
    (_get_database_class : string -> Experiment -> result Database)
    (sort_samples : string -> Experiment -> result Experiment)
    (h : gmap addr Experiment) (exp : addr) (e : Experiment)
    (fs : names)
    (sample_color_bars feature_color_bars : option names)
    (gui : option string) (dbs : databases_arg) (color_bar_label : bool)
    (kw_sample_field : option (option string)) (kwargs : heatmap_args)
    (ex : exn) :
  h !! exp = Some e ->
  sort_error sort_samples (_to_list fs) e = Some ex ->
  plot_sort _get_database_class sort_samples h exp (Some fs)
    sample_color_bars feature_color_bars gui dbs color_bar_label
    kw_sample_field kwargs
  = Some (<[fresh (dom h) := sorted_by sort_samples (_to_list fs) e]> h,
          ([], Raise ex)).
Proof.
  intros He Herr. unfold plot_sort, copy. rewrite He. simpl.
  rewrite (sort_loop_result sort_samples (_to_list fs) _ (fresh (dom h)) None e)
    by apply lookup_insert_eq.
  rewrite Herr, insert_insert_eq. simpl.
  rewrite lookup_insert_eq. reflexivity.
Qed.

Lemma plot_sort_sort_fails_witness :
  exists h',
    plot_sort (fun _ _ => Ok (mkDatabase true "dbbact"))
      (fun f _ => Raise (KeyError f))
      {[ 1%positive := example_exp ]} 1%positive (Some (Name "subject"))
      None None (Some "cli") DatabasesDefault true None example_args
    = Some (h', ([], Raise (KeyError "subject"))).
Proof.
  eexists.
  apply (plot_sort_sort_fails (fun _ _ => Ok (mkDatabase true "dbbact"))
           (fun f _ => Raise (KeyError f))
           {[ 1%positive := example_exp ]} 1%positive example_exp (Name "subject")
           None None (Some "cli") DatabasesDefault true None example_args
           (KeyError "subject")); reflexivity.
Defined.
